(** * iq2us-rss: the scrape, select and render pipeline of [iq2us_rss.py]

    A shallow embedding of [iq2us_rss/iq2us_rss.py].  A Python generator is
    modelled by its finite trace: the values it yields, then either a normal
    stop or the exception it raises.  The libraries the program calls
    (BeautifulSoup, iso8601, urlparse, strftime) and the HTTP session are
    the fields of a [Library] interface, and the state of the network is
    passed along explicitly, so that every statement holds whatever the
    libraries and the network answer.  The clock is a parameter [now], in
    microseconds since the epoch.  A text is held as the bytes of its
    encoding in UTF-8, which is the encoding of the feed.  Logging is left
    out. *)

From Stdlib Require Import ZArith List String Ascii Bool Lia Permutation Sorted.
Import ListNotations.
Open Scope string_scope.
Open Scope list_scope.
Open Scope Z_scope.

(** ** Python runtime *)

Module Py.

(** The exception classes the program can meet.  [HTTPError],
    [ConnectionError], [Timeout] and the like are subclasses of
    [requests.exceptions.RequestException]; [iso8601.ParseError] is a
    [ValueError]. *)
Inductive exn : Type :=
| RequestException (what : string)
| ValueError
| TypeError
| KeyError (key : string)
| AttributeError
| OverflowError
| IOError.

(** [except requests.exceptions.RequestException] *)
Definition is_RequestException (e : exn) : bool :=
  match e with RequestException _ => true | _ => false end.

(** [except ValueError] *)
Definition is_ValueError (e : exn) : bool :=
  match e with ValueError => true | _ => false end.

(** A fallible expression: [inl e] raises [e], [inr v] evaluates to [v]. *)
Definition result (A : Type) : Type := (exn + A)%type.

Definition bind {A B : Type} (r : result A) (k : A -> result B) : result B :=
  match r with inl e => inl e | inr a => k a end.

(** The trace of a generator: what it yields, then how it ends
    ([None]: StopIteration, [Some e]: it raises [e]). *)
Definition gen (A : Type) : Type := (list A * option exn)%type.

Definition yielded {A : Type} (g : gen A) : list A := fst g.
Definition raised {A : Type} (g : gen A) : option exn := snd g.

Definition gen_stop {A : Type} : gen A := ([], None).
Definition gen_raise {A : Type} (e : exn) : gen A := ([], Some e).
Definition gen_yield {A : Type} (a : A) : gen A := ([a], None).

(** [g1] followed by [g2]; nothing of [g2] happens once [g1] has raised. *)
Definition gen_seq {A : Type} (g1 g2 : gen A) : gen A :=
  match g1 with
  | (xs, Some e) => (xs, Some e)
  | (xs, None) => (xs ++ fst g2, snd g2)
  end.

(** [for x in l: <body x>] inside a generator. *)
Fixpoint gen_for {A B : Type} (l : list A) (body : A -> gen B) : gen B :=
  match l with
  | [] => gen_stop
  | x :: l' => gen_seq (body x) (gen_for l' body)
  end.

(** [for x in g: <body x>] where [g] is itself a generator: the exception
    that ends [g] comes out after the bodies of its values have run. *)
Definition gen_for_gen {A B : Type} (g : gen A) (body : A -> gen B) : gen B :=
  gen_seq (gen_for (fst g) body)
          (match snd g with Some e => gen_raise e | None => gen_stop end).

(** Truth value of an [int]. *)
Definition truthy_int (n : Z) : bool := negb (n =? 0).

(** [unicode(x)] of a value that is a string or [None]. *)
Definition unicode_opt (x : option string) : string :=
  match x with Some s => s | None => "None" end.

(** [s[:n]] for [n >= 0]. *)
Definition slice_to (n : nat) (s : string) : string := substring 0 n s.

(** [s[:-n]] for [n > 0]. *)
Definition slice_to_minus (n : nat) (s : string) : string :=
  substring 0 (String.length s - n) s.

(** [s.endswith(suffix)] *)
Definition endswith (s suffix : string) : bool :=
  (substring (String.length s - String.length suffix)
             (String.length suffix) s =? suffix)%string
  && (String.length suffix <=? String.length s)%nat.

(** [s.replace(c, r)] for a one-character [c]. *)
Fixpoint replace (c : ascii) (r : string) (s : string) : string :=
  match s with
  | EmptyString => EmptyString
  | String a s' =>
      if Ascii.eqb a c then (r ++ replace c r s')%string
      else String a (replace c r s')
  end.

(** [''.join(l)] *)
Definition join (l : list string) : string :=
  fold_right String.append EmptyString l.

(** [max(l, key=key)] on strings keys, for a non-empty [l] given as head
    and tail: the running maximum is replaced only by a strictly greater
    key, so the first maximal element is returned.  Strings compare
    lexicographically, character code by character code. *)
Definition max_by {A : Type} (key : A -> string) (x : A) (l : list A) : A :=
  fold_left (fun best y => if String.ltb (key best) (key y) then y else best) l x.

(** [min(l, key=key)]: replaced only by a strictly smaller key. *)
Definition min_by {A : Type} (key : A -> string) (x : A) (l : list A) : A :=
  fold_left (fun best y => if String.ltb (key y) (key best) then y else best) l x.

(** [sorted(l, key=key, reverse=True)].  The built-in sort is stable, and
    with [reverse=True] elements of equal key keep their original order;
    a stable sort has one possible result, computed here by insertion. *)
Fixpoint insert_desc {A : Type} (key : A -> Z) (x : A) (l : list A) : list A :=
  match l with
  | [] => [x]
  | y :: l' => if key x <? key y then y :: insert_desc key x l' else x :: l
  end.

Fixpoint sorted_reverse {A : Type} (key : A -> Z) (l : list A) : list A :=
  match l with
  | [] => []
  | x :: l' => insert_desc key x (sorted_reverse key l')
  end.

End Py.

Import Py.

Notation "x <- r ;; k" := (Py.bind r (fun x => k))
  (at level 61, r at next level, right associativity).

(** ** datetime *)

(** An aware [datetime.datetime]: the instant in microseconds since the
    epoch and the offset of its time zone in minutes.  Aware datetimes are
    compared by instant. *)
Record datetime : Type := mkdatetime { instant : Z; utcoffset : Z }.

Definition usec_per_day : Z := 86400 * 1000000.

(** [datetime.datetime(1970, 1, 1, 0, 0, 0, 0, iso8601.UTC)] *)
Definition epoch_utc : datetime := mkdatetime 0 0.

(** [a < b] on aware datetimes *)
Definition datetime_lt (a b : datetime) : bool := instant a <? instant b.

(** [datetime.min] and [datetime.max] read as UTC, in microseconds. *)
Definition datetime_min_usec : Z := -62135596800 * 1000000.
Definition datetime_max_usec : Z := 253402300799 * 1000000 + 999999.

(** [d.astimezone(iso8601.UTC)]: the same instant at the offset 0.  The
    date is computed as [d - d.utcoffset()], which raises OverflowError when
    the instant, read in UTC, is no date of the years 1 to 9999 (as for
    0001-01-01T00:00+14:00). *)
Definition astimezone_utc (d : datetime) : result datetime :=
  if (datetime_min_usec <=? instant d) && (instant d <=? datetime_max_usec)
  then inr (mkdatetime (instant d) 0)
  else inl OverflowError.

(** [datetime.timedelta(days)]: at most 999999999 days either way. *)
Definition timedelta (days : Z) : result Z :=
  if (Z.abs days <=? 999999999) then inr (days * usec_per_day)
  else inl OverflowError.

(** [d - delta] for a UTC [d]: the result must be a representable date. *)
Definition datetime_sub (d : datetime) (delta : Z) : result datetime :=
  let i := instant d - delta in
  if (datetime_min_usec <=? i) && (i <=? datetime_max_usec)
  then inr (mkdatetime i (utcoffset d))
  else inl OverflowError.

(** ** The parsed document (bs4) *)

Module Soup.

(** A node of the parse tree.  [attrs] is the dictionary of the tag's
    attributes, as an association list read by its first binding of a key.
    Attribute values are kept as the text of the document; bs4 holds the
    value of [class] as the list of its whitespace-separated parts, which
    [attr_matches] below recomputes.  A string of the document is a
    [NavigableString] (or a [CData]); [Comment] stands for the strings that
    bs4 holds in a subclass of their own: a comment, a declaration, a
    doctype, a processing instruction and the text of a script or style
    element.  They are strings to [tag.string], and the iterators over the
    text of a tag leave them out. *)
#[warnings="-register-all"]
Inductive node : Type :=
| Tag (name : string) (attrs : list (string * string)) (contents : list node)
| NavigableString (text : string)
| Comment (text : string).

(** Induction on a node, with the property known of its contents. *)
Fixpoint node_forall_ind (P : node -> Prop)
    (HTag : forall nm attrs cs, Forall P cs -> P (Tag nm attrs cs))
    (HStr : forall s, P (NavigableString s))
    (HCom : forall s, P (Comment s)) (n : node) : P n :=
  match n with
  | Tag nm attrs cs =>
      HTag nm attrs cs
        ((fix all (l : list node) : Forall P l :=
            match l with
            | [] => Forall_nil P
            | c :: l' =>
                Forall_cons c (node_forall_ind P HTag HStr HCom c) (all l')
            end) cs)
  | NavigableString s => HStr s
  | Comment s => HCom s
  end.

Definition tag_attrs (n : node) : list (string * string) :=
  match n with Tag _ a _ => a | NavigableString _ | Comment _ => [] end.

Definition tag_contents (n : node) : list node :=
  match n with Tag _ _ c => c | NavigableString _ | Comment _ => [] end.

Fixpoint assoc (k : string) (l : list (string * string)) : option string :=
  match l with
  | [] => None
  | (k', v) :: l' => if (k' =? k)%string then Some v else assoc k l'
  end.

(** [tag.descendants]: every node below [n], in document order. *)
Fixpoint descendants (n : node) : list node :=
  match n with
  | Tag _ _ cs =>
      (fix over (l : list node) : list node :=
         match l with
         | [] => []
         | c :: l' => c :: descendants c ++ over l'
         end) cs
  | NavigableString _ | Comment _ => []
  end.

Definition descendants_of_list (l : list node) : list node :=
  flat_map (fun c => c :: descendants c) l.

(** [re.findall(r"\S+", v)]: the whitespace-separated parts of [v], for
    the white space of ASCII. *)
Definition is_space (a : ascii) : bool :=
  let n := nat_of_ascii a in
  ((9 <=? n) && (n <=? 13))%nat || ((28 <=? n) && (n <=? 32))%nat.

Fixpoint split_ws_aux (cur : string) (s : string) : list string :=
  match s with
  | EmptyString => match cur with EmptyString => [] | _ => [cur] end
  | String a s' =>
      if is_space a
      then match cur with
           | EmptyString => split_ws_aux EmptyString s'
           | _ => cur :: split_ws_aux EmptyString s'
           end
      else split_ws_aux (cur ++ String a EmptyString)%string s'
  end.

Definition split_ws (s : string) : list string := split_ws_aux EmptyString s.

(** How a search value matches the attribute [k] of value [v]: by
    equality, and for the multi-valued [class] also when one of the parts
    is the value searched. *)
Definition attr_matches (k want v : string) : bool :=
  if (k =? "class")%string
  then existsb (String.eqb want) (split_ws v) || (v =? want)%string
  else (v =? want)%string.

(** The search criteria of [find_all(name, **attrs)]. *)
Record strainer : Type := mkstrainer {
  want_name : option string;
  want_attrs : list (string * string)
}.

Definition by_name (nm : string) : strainer := mkstrainer (Some nm) [].
Definition by_attr (k v : string) : strainer := mkstrainer None [(k, v)].
Definition by_name_attr (nm k v : string) : strainer := mkstrainer (Some nm) [(k, v)].

Definition matches (st : strainer) (n : node) : bool :=
  match n with
  | NavigableString _ | Comment _ => false
  | Tag nm attrs _ =>
      match want_name st with
      | Some w => (nm =? w)%string
      | None => true
      end
      && forallb (fun kv =>
                    match assoc (fst kv) attrs with
                    | Some v => attr_matches (fst kv) (snd kv) v
                    | None => false
                    end) (want_attrs st)
  end.

(** [tag.find_all(...)] *)
Definition find_all (st : strainer) (n : node) : list node :=
  filter (matches st) (descendants n).

(** [tag.find(...)], which is also [tag.<name>]: the first match or [None]. *)
Definition find (st : strainer) (n : node) : option node :=
  hd_error (find_all st n).

(** [tag.string]: the text of a node that holds exactly one string,
    possibly under a chain of only children. *)
Fixpoint string_of (n : node) : option string :=
  match n with
  | NavigableString s | Comment s => Some s
  | Tag _ _ [c] => string_of c
  | Tag _ _ _ => None
  end.

(** [tag._all_strings()]: the [NavigableString]s below [n], in document
    order; the strings of the other classes are passed over. *)
Definition strings (n : node) : list string :=
  flat_map (fun d =>
              match d with
              | NavigableString s => [s]
              | Tag _ _ _ | Comment _ => []
              end)
           (descendants n).

End Soup.

Import Soup.

(** ** The records of the program *)

Module Debate.
Record t : Type := mk { url : string; last_modified : datetime }.
End Debate.

Module Podcast.
Record t : Type := mk {
  title : string;
  desc : string;
  pubDate : option datetime;
  url : string;
  type : string;
  duration : string
}.
End Podcast.

Inductive audio_mode : Type := AudioAll | AudioEdited | AudioUnedited.

(** The command line, as [parser.parse_args()] returns it; [since] is
    [None] when [--since] is not given. *)
Module Args.
Record t : Type := mk {
  audio : audio_mode;
  since : option Z;
  sort : bool;
  title : string;
  url : string
}.
End Args.

(** ** What the libraries and the network answer *)

Class Library : Type := {
  (** the state of everything outside the process *)
  World : Type;
  (** [urlparse(u)]: the scheme and the path, or the ValueError of a URL
      that cannot be split *)
  urlparse : string -> result (string * string);
  (** [session.get(u, timeout)], [raise_for_status()], [resp.text] *)
  session_get : string -> World -> result string * World;
  (** [open(path)], read by the parser *)
  open_file : string -> World -> result string * World;
  (** [bs4.BeautifulSoup(body, "html.parser")] *)
  BeautifulSoup : string -> node;
  (** [iso8601.parse_date(x)], for [x] a string or [None] *)
  parse_date : option string -> result datetime;
  (** [s.strip()] *)
  strip : string -> string;
  (** [d.strftime("%a, %d %b %Y %H:%M:%S -0000")]: the text it returns,
      and the exception it raises instead of returning, if any (Python 2
      raises ValueError for a year before 1900) *)
  strftime_rfc822 : datetime -> string;
  strftime_raises : datetime -> option exn;
  (** [_get_content_length(u, timeout, session)], as text: the HEAD request
      and its redirections are left to the session *)
  _get_content_length : string -> World -> result string * World
}.

Section Program.

Context {L : Library}.

(** The first lines of [find_podcasts] and of [find_debates]: the body of
    the resource, from a file or over HTTP. *)
Definition read_body (url : string) (w : World) : result string * World :=
  match urlparse url with
  | inl e => (inl e, w)
  | inr (scheme, path) =>
      if (scheme =? "file")%string then open_file path w else session_get url w
  end.

(** *** find_podcasts *)

(** [tag[k]] *)
Definition getitem (n : node) (k : string) : result string :=
  match assoc k (tag_attrs n) with
  | Some v => inr v
  | None => inl (KeyError k)
  end.

(** [x[k]] where [x] is a tag or [None] *)
Definition getitem_opt (x : option node) (k : string) : result string :=
  match x with
  | Some n => getitem n k
  | None => inl TypeError
  end.

(** [tag.stripped_strings]: the strings of [_all_strings()], stripped,
    less the empty ones. *)
Definition stripped_strings (n : node) : list string :=
  filter (fun s => negb (s =? EmptyString)%string) (map strip (strings n)).

(** [soup.find("div", class_="details").stripped_strings], joined *)
Definition page_desc (soup : node) : result string :=
  match find (by_name_attr "div" "class" "details") soup with
  | Some d => inr (join (stripped_strings d))
  | None => inl AttributeError
  end.

(** The published_time metadata, [None] when absent or not a date. *)
Definition page_pub_date (soup : node) : result (option datetime) :=
  match find (by_name_attr "meta" "property" "article:published_time") soup with
  | Some pub_date_meta =>
      content <- getitem pub_date_meta "content" ;;
      match parse_date (Some content) with
      | inr d => inr (Some d)
      | inl e => if is_ValueError e then inr None else inl e
      end
  | None => inr None
  end.

(** [Podcast(unicode(src['data-title']), desc, pub_date,
             unicode(src.source['src']), unicode(src.source['type']),
             unicode(src['data-duration']))] *)
Definition podcast_of_audio (desc : string) (pub_date : option datetime)
    (src : node) : result Podcast.t :=
  t <- getitem src "data-title" ;;
  u <- getitem_opt (find (by_name "source") src) "src" ;;
  ty <- getitem_opt (find (by_name "source") src) "type" ;;
  d <- getitem src "data-duration" ;;
  inr (Podcast.mk t desc pub_date u ty d).

Definition yield_result {A : Type} (r : result A) : gen A :=
  match r with inr a => gen_yield a | inl e => gen_raise e end.

(** The three nested loops at the end of [find_podcasts]. *)
Definition scan_podcasts (soup : node) (desc : string)
    (pub_date : option datetime) : gen Podcast.t :=
  gen_for (find_all (by_attr "id" "debate-podcasts") soup) (fun elem =>
    gen_for (find_all (by_attr "class" "panoply-podcast") elem) (fun podcast =>
      gen_for (find_all (by_name "audio") podcast) (fun src =>
        yield_result (podcast_of_audio desc pub_date src)))).

(** [find_podcasts] once the page is parsed. *)
Definition find_podcasts_soup (soup : node) : gen Podcast.t :=
  match page_desc soup with
  | inl e => gen_raise e
  | inr desc =>
      match page_pub_date soup with
      | inl e => gen_raise e
      | inr pub_date => scan_podcasts soup desc pub_date
      end
  end.

Definition find_podcasts (url : string) (w : World) : gen Podcast.t * World :=
  match read_body url w with
  | (inl e, w') => (gen_raise e, w')
  | (inr body, w') => (find_podcasts_soup (BeautifulSoup body), w')
  end.

(** *** find_debates *)

Definition debate_path : string := "/debates/".

(** The body of the loop over the [<url>] elements. *)
Definition debate_of_urltag (urltag : node) : gen Debate.t :=
  match find (by_name "loc") urltag with
  | None => gen_stop
  | Some loc =>
      let url_item := unicode_opt (string_of loc) in
      match urlparse url_item with
      | inl e => gen_raise e
      | inr (_, path) =>
          if negb (slice_to (String.length debate_path) path =? debate_path)%string
          then gen_stop
          else
            match find (by_name "lastmod") urltag with
            | Some lastmod =>
                match parse_date (string_of lastmod) with
                | inr d => gen_yield (Debate.mk url_item d)
                | inl e =>
                    if is_ValueError e
                    then gen_yield (Debate.mk url_item epoch_utc)
                    else gen_raise e
                end
            | None => gen_yield (Debate.mk url_item epoch_utc)
            end
      end
  end.

Definition find_debates_soup (soup : node) : gen Debate.t :=
  gen_for (find_all (by_name "url") soup) debate_of_urltag.

Definition find_debates (url : string) (w : World) : gen Debate.t * World :=
  match read_body url w with
  | (inl e, w') => (gen_raise e, w')
  | (inr body, w') => (find_debates_soup (BeautifulSoup body), w')
  end.

(** *** The filters *)

Definition debate_filter_t : Type := gen Debate.t -> gen Debate.t.
Definition podcast_filter_t : Type := Debate.t -> gen Podcast.t -> gen Podcast.t.

Definition all_debates : debate_filter_t := fun debates => debates.

Definition all_podcasts : podcast_filter_t := fun debate podcasts => podcasts.

(** *** find_debate_podcasts *)

(** The loop over the debates: the page of each is fetched in turn, and a
    [RequestException] that comes out of the inner loop is caught. *)
Fixpoint debate_podcasts_loop (podcast_filter : podcast_filter_t)
    (debates : list Debate.t) (w : World)
    : gen (Debate.t * Podcast.t) * World :=
  match debates with
  | [] => (gen_stop, w)
  | debate :: rest =>
      let '(podcasts, w1) := find_podcasts (Debate.url debate) w in
      let '(found, ending) := podcast_filter debate podcasts in
      let pairs := map (fun podcast => (debate, podcast)) found in
      match ending with
      | Some e =>
          if is_RequestException e
          then let '(g, w2) := debate_podcasts_loop podcast_filter rest w1 in
               (gen_seq (pairs, None) g, w2)
          else ((pairs, Some e), w1)
      | None =>
          let '(g, w2) := debate_podcasts_loop podcast_filter rest w1 in
          (gen_seq (pairs, None) g, w2)
      end
  end.

Definition find_debate_podcasts (url : string) (debate_filter : debate_filter_t)
    (podcast_filter : podcast_filter_t) (w : World)
    : gen (Debate.t * Podcast.t) * World :=
  let '(found, w1) := find_debates url w in
  let debates := debate_filter found in
  let '(g, w2) := debate_podcasts_loop podcast_filter (yielded debates) w1 in
  (gen_seq g (match raised debates with
              | Some e => gen_raise e
              | None => gen_stop
              end), w2).

(** *** write_rss *)

Definition dquote : string := String (ascii_of_nat 34) EmptyString.
Definition nl : string := String (ascii_of_nat 10) EmptyString.

(** [cgi.escape(s, quote)], as the standard library defines it up to
    Python 3.7: the ampersand first, then the angle brackets, then the
    double quote when [quote] is true. *)
Definition cgi_escape (s : string) (quote : bool) : string :=
  let s := replace "&" "&amp;" s in
  let s := replace "<" "&lt;" s in
  let s := replace ">" "&gt;" s in
  if quote then replace (ascii_of_nat 34) "&quot;" s else s.

Definition base_url (url : string) : string :=
  if endswith url "/sitemap.xml"
  then slice_to_minus (String.length "sitemap.xml") url
  else url.

(** [podcast.pubDate if podcast.pubDate else debate.last_modified] *)
Definition effective_date (ent : Debate.t * Podcast.t) : datetime :=
  match Podcast.pubDate (snd ent) with
  | Some d => d
  | None => Debate.last_modified (fst ent)
  end.

(** The writes before the loop, one string for each [fh.write]. *)
Definition rss_header (url title : string) (rfc822_time : string) : list string :=
  [ ("<?xml version=" ++ dquote ++ "1.0" ++ dquote ++ " encoding=" ++ dquote
     ++ "UTF-8" ++ dquote ++ " ?>" ++ nl)%string;
    ("<rss version=" ++ dquote ++ "2.0" ++ dquote ++ " xmlns:itunes=" ++ dquote
     ++ "http://www.itunes.com/dtds/podcast-1.0.dtd" ++ dquote ++ ">" ++ nl)%string;
    ("<channel>" ++ nl)%string;
    ("  <title>" ++ cgi_escape title true ++ "</title>" ++ nl)%string;
    ("  <description>Intelligence Squared U.S. Debates bring Oxford-style debate to America â€“ one motion, one moderator, two panelists for the motion and two against. From clean energy and the financial crisis, to the Middle East and the death of mainstream media, Intelligence Squared U.S. brings together the world's leading authorities on the day's most important issues. Join the debate online and cast your vote for each topic at www.iq2us.org.</description>" ++ nl)%string;
    ("  <link>" ++ base_url url ++ "</link>" ++ nl)%string;
    ("  <language>en-us</language>" ++ nl)%string;
    ("  <image>" ++ nl)%string;
    ("    <url>http://static.megaphone.fm/podcasts/bcc042ec-fb48-11e5-b604-930d2eb6cae2/image/uploads_2F1482274927463-5ma333ntgbmg85er-552d6f3f61ced4ca865638c3f33802a3_2FIQ2-Panoply3.jpg</url>" ++ nl)%string;
    ("    <title>" ++ cgi_escape title true ++ "</title>" ++ nl)%string;
    ("    <link>" ++ base_url url ++ "</link>" ++ nl)%string;
    ("  </image>" ++ nl)%string;
    ("  <lastBuildDate>" ++ rfc822_time ++ "</lastBuildDate>" ++ nl)%string;
    ("  <pubDate>" ++ rfc822_time ++ "</pubDate>" ++ nl)%string;
    ("  <generator>https://github.com/drafnel/iq2us-rss</generator>" ++ nl)%string;
    ("  <docs>https://validator.w3.org/feed/docs/rss2.html</docs>" ++ nl)%string;
    ("  <ttl>60</ttl>" ++ nl)%string ].

(** [pubdate.astimezone(iso8601.UTC).strftime(rfc822_format)], the
    argument of the fifth write of an item: it is evaluated after the
    fourth write, and either of the two calls can raise. *)
Definition item_pub_date (ent : Debate.t * Podcast.t) : result string :=
  utc <- astimezone_utc (effective_date ent) ;;
  match strftime_raises utc with
  | Some e => inl e
  | None => inr (strftime_rfc822 utc)
  end.

(** The first four writes of one turn of the loop. *)
Definition rss_item_head (ent : Debate.t * Podcast.t) : list string :=
  let debate := fst ent in
  let podcast := snd ent in
  [ ("  <item>" ++ nl)%string;
    ("    <title>" ++ cgi_escape (Podcast.title podcast) true ++ "</title>" ++ nl)%string;
    ("    <link>" ++ cgi_escape (Debate.url debate) true ++ "</link>" ++ nl)%string;
    ("    <description>" ++ cgi_escape (Podcast.desc podcast) true
     ++ "</description>" ++ nl)%string ].

(** The last four writes, the publish date being formatted. *)
Definition rss_item_tail (ent : Debate.t * Podcast.t)
    (content_length pub_date : string) : list string :=
  let podcast := snd ent in
  [ ("    <pubDate>" ++ pub_date ++ "</pubDate>" ++ nl)%string;
    ("    <enclosure url=" ++ dquote ++ Podcast.url podcast ++ dquote
     ++ " length=" ++ dquote ++ content_length ++ dquote
     ++ " type=" ++ dquote ++ Podcast.type podcast ++ dquote ++ " />" ++ nl)%string;
    ("    <itunes:duration>" ++ Podcast.duration podcast
     ++ "</itunes:duration>" ++ nl)%string;
    ("  </item>" ++ nl)%string ].

(** The writes of one turn of the loop, the content length being known:
    the first four, then either the exception of the publish date or the
    last four. *)
Definition write_item (ent : Debate.t * Podcast.t) (content_length : string)
    : gen string :=
  match item_pub_date ent with
  | inl e => (rss_item_head ent, Some e)
  | inr pub_date =>
      (rss_item_head ent ++ rss_item_tail ent content_length pub_date, None)
  end.

(** The eight writes of a turn that is not cut short: those of
    [write_item] when the publish date is formatted. *)
Definition rss_item (ent : Debate.t * Podcast.t) (content_length : string)
    : list string :=
  rss_item_head ent
  ++ rss_item_tail ent content_length
       (match item_pub_date ent with
        | inr pub_date => pub_date
        | inl _ => EmptyString
        end).

(** The content length of one item: a [RequestException] gives [0]. *)
Definition item_content_length (get_content_length : bool) (podcast : Podcast.t)
    (w : World) : result string * World :=
  if get_content_length
  then match _get_content_length (Podcast.url podcast) w with
       | (inr len, w') => (inr len, w')
       | (inl e, w') =>
           if is_RequestException e then (inr "0", w') else (inl e, w')
       end
  else (inr "0", w).

Fixpoint write_items (get_content_length : bool)
    (ents : list (Debate.t * Podcast.t)) (w : World) : gen string * World :=
  match ents with
  | [] => (gen_stop, w)
  | ent :: rest =>
      match item_content_length get_content_length (snd ent) w with
      | (inl e, w1) => (gen_raise e, w1)
      | (inr len, w1) =>
          match raised (write_item ent len) with
          | Some e => (write_item ent len, w1)
          | None =>
              let '(g, w2) := write_items get_content_length rest w1 in
              (gen_seq (write_item ent len) g, w2)
          end
      end
  end.

(** [write_rss], as the trace of its writes to [fh]; [now] is what
    [utcnow()] returns, the date of the day of the run, which [strftime]
    formats.  The pairs are given by their trace: an exception
    that ends them comes out of the loop, and the two closing writes are
    then not reached. *)
Definition write_rss (url title : string)
    (podcast_tuples : gen (Debate.t * Podcast.t)) (get_content_length : bool)
    (now : Z) (w : World) : gen string * World :=
  let rfc822_time := strftime_rfc822 (mkdatetime now 0) in
  let '(items, w1) := write_items get_content_length (yielded podcast_tuples) w in
  (gen_seq (rss_header url title rfc822_time, None)
     (gen_seq items
        (match raised podcast_tuples with
         | Some e => gen_raise e
         | None => (["</channel>" ++ nl; "</rss>" ++ nl]%string, None)
         end)), w1).

(** *** main *)

(** [since], from [args.since] and the clock. *)
Definition main_since (now : Z) (args_since : option Z) : result (option datetime) :=
  match args_since with
  | Some days =>
      if truthy_int days
      then delta <- timedelta days ;;
           since <- datetime_sub (mkdatetime now 0) delta ;;
           inr (Some since)
      else inr None
  | None => inr None
  end.

(** The debate filter defined under [if args.since:]. *)
Definition since_debate_filter (since : datetime) : debate_filter_t :=
  fun debates =>
    gen_for_gen debates (fun debate =>
      if datetime_lt (Debate.last_modified debate) since
      then gen_stop
      else gen_yield debate).

(** [podcast.pubDate and podcast.pubDate < since] *)
Definition older_than (since : datetime) (podcast : Podcast.t) : bool :=
  match Podcast.pubDate podcast with
  | Some d => datetime_lt d since
  | None => false
  end.

(** [since and podcast.pubDate and podcast.pubDate < since] *)
Definition too_old (since : option datetime) (podcast : Podcast.t) : bool :=
  match since with
  | Some s => older_than s podcast
  | None => false
  end.

(** The first loop of the edited and unedited filters: [podcast_list]. *)
Definition podcast_list_of (since : option datetime) (podcasts : list Podcast.t)
    : list Podcast.t :=
  filter (fun podcast => negb (too_old since podcast)) podcasts.

(** The filter of the unedited mode.  Nothing is yielded before the
    podcasts of the page are exhausted, so an exception that ends them
    comes out first. *)
Definition unedited_podcast_filter (since : option datetime) : podcast_filter_t :=
  fun _ podcasts =>
    match raised podcasts with
    | Some e => gen_raise e
    | None =>
        match podcast_list_of since (yielded podcasts) with
        | [] => gen_stop
        | p :: l => gen_yield (max_by Podcast.duration p l)
        end
    end.

Definition edited_podcast_filter (since : option datetime) : podcast_filter_t :=
  fun _ podcasts =>
    match raised podcasts with
    | Some e => gen_raise e
    | None =>
        match podcast_list_of since (yielded podcasts) with
        | [] => gen_stop
        | p :: l => gen_yield (min_by Podcast.duration p l)
        end
    end.

(** The filter of the all mode defined under [if args.since:]. *)
Definition since_podcast_filter (since : datetime) : podcast_filter_t :=
  fun _ podcasts =>
    gen_for_gen podcasts (fun podcast =>
      if older_than since podcast then gen_stop else gen_yield podcast).

(** [since] is set exactly when [args.since] is true, so the branches on
    [args.since] are branches on [since]. *)
Definition main_debate_filter (since : option datetime) : debate_filter_t :=
  match since with
  | Some s => since_debate_filter s
  | None => all_debates
  end.

Definition main_podcast_filter (audio : audio_mode) (since : option datetime)
    : podcast_filter_t :=
  match audio with
  | AudioUnedited => unedited_podcast_filter since
  | AudioEdited => edited_podcast_filter since
  | AudioAll =>
      match since with
      | Some s => since_podcast_filter s
      | None => all_podcasts
      end
  end.

Definition default_title : string := "[unofficial] Intelligence Squared U.S. Debates".

Definition main_title (args : Args.t) : string :=
  if (Args.title args =? default_title)%string
  then match Args.audio args with
       | AudioUnedited => (Args.title args ++ " [unedited]")%string
       | AudioEdited => (Args.title args ++ " [edited]")%string
       | AudioAll => (Args.title args ++ " [all-debates]")%string
       end
  else Args.title args.

(** [sorted(podcast_tuples, key=..., reverse=True)]: the generator is
    exhausted before anything is returned. *)
Definition sorted_tuples (podcast_tuples : gen (Debate.t * Podcast.t))
    : gen (Debate.t * Podcast.t) :=
  match raised podcast_tuples with
  | Some e => gen_raise e
  | None =>
      (sorted_reverse (fun ent => instant (effective_date ent))
                      (yielded podcast_tuples), None)
  end.

(** [podcast_tuples] as [main] hands it to [write_rss]. *)
Definition main_podcast_tuples (args : Args.t) (now : Z) (w : World)
    : gen (Debate.t * Podcast.t) * World :=
  match main_since now (Args.since args) with
  | inl e => (gen_raise e, w)
  | inr since =>
      let '(podcast_tuples, w1) :=
        find_debate_podcasts (Args.url args) (main_debate_filter since)
          (main_podcast_filter (Args.audio args) since) w in
      if Args.sort args
      then (sorted_tuples podcast_tuples, w1)
      else (podcast_tuples, w1)
  end.

End Program.

(** ** Notions used by the statements *)

(** [x] lies below [t] in the parse tree. *)
Inductive descendant (x : node) : node -> Prop :=
| descendant_child : forall t, In x (tag_contents t) -> descendant x t
| descendant_below : forall c t,
    In c (tag_contents t) -> descendant x c -> descendant x t.

(** [src] is an audio element inside a panoply-podcast block inside a
    debate-podcasts block of [soup]. *)
Definition in_nesting (soup src : node) : Prop :=
  exists elem podcast,
    descendant elem soup
    /\ matches (by_attr "id" "debate-podcasts") elem = true
    /\ descendant podcast elem
    /\ matches (by_attr "class" "panoply-podcast") podcast = true
    /\ descendant src podcast
    /\ matches (by_name "audio") src = true.

(** The age rule of the specification: a known publish date strictly
    older than the cutoff. *)
Definition strictly_older (cutoff : Z) (podcast : Podcast.t) : Prop :=
  exists d, Podcast.pubDate podcast = Some d /\ instant d < cutoff.

(** The pairs are in non-increasing order of effective timestamp. *)
Definition non_increasing (l : list (Debate.t * Podcast.t)) : Prop :=
  StronglySorted
    (fun a b => instant (effective_date b) <= instant (effective_date a)) l.


(** The command line with [--since] left out. *)
Definition without_since (args : Args.t) : Args.t :=
  Args.mk (Args.audio args) None (Args.sort args) (Args.title args)
          (Args.url args).

(** A duration read as a number of seconds: the value of a string of
    decimal digits. *)
Definition digit_value (a : ascii) : option Z :=
  let n := nat_of_ascii a in
  if ((48 <=? n) && (n <=? 57))%nat then Some (Z.of_nat n - 48) else None.

Fixpoint seconds_from (acc : Z) (s : string) : option Z :=
  match s with
  | EmptyString => Some acc
  | String a s' =>
      match digit_value a with
      | Some d => seconds_from (10 * acc + d) s'
      | None => None
      end
  end.

Definition duration_seconds (podcast : Podcast.t) : option Z :=
  match Podcast.duration podcast with
  | EmptyString => None
  | s => seconds_from 0 s
  end.













(** ** A small site, for concrete runs *)

Module Scenario.

Definition element (name text : string) : node :=
  Tag name [] [NavigableString text].

Definition url_a : node :=
  Tag "url" [] [element "loc" "http://iq2/debates/a";
                element "lastmod" "2020-01-01T00:00Z"].

Definition url_b : node :=
  Tag "url" [] [element "loc" "http://iq2/debates/b";
                element "lastmod" "yesterday"].

Definition url_other : node :=
  Tag "url" [] [element "loc" "http://iq2/other/y";
                element "lastmod" "2020-01-01T00:00Z"].

Definition url_c : node :=
  Tag "url" [] [element "loc" "http://iq2/debates/c"].

Definition sitemap : node :=
  Tag "[document]" [] [Tag "urlset" [] [url_a; url_b; url_other; url_c]].

Definition audio (title duration : string) (inside : list node) : node :=
  Tag "audio" [("data-duration", duration); ("data-title", title);
               ("controls", EmptyString)] inside.

Definition source (src : string) : node :=
  Tag "source" [("src", src); ("type", "audio/mpeg")] [].

Definition podcast_block (a : node) : node :=
  Tag "div" [("class", "node node-podcast col col-4 t-col-3")]
    [Tag "div" [("class", "panoply-podcast")]
       [Tag "div" [("class", "bottom")] [a]]].

Definition page (blocks : list node) : node :=
  Tag "[document]" []
    [Tag "div" [("class", "details")] [NavigableString "A debate."];
     Tag "div" [("id", "debate-podcasts")]
       [Tag "div" [("class", "wrapper")] blocks]].

(** Two recordings of 999 and of 1000 seconds. *)
Definition page_b : node :=
  page [podcast_block (audio "Motion" "999" [source "http://cdn/short.mp3"]);
        podcast_block (audio "Motion [Unedited]" "1000" [source "http://cdn/long.mp3"])].

Definition page_c : node :=
  page [podcast_block (audio "Other motion" "3042" [source "http://cdn/c.mp3"])].

(** An audio element that has no source element. *)
Definition bare_audio : node := audio "Motion" "3042" [].

Definition page_bare : node := page [podcast_block bare_audio].

Definition short_b : Podcast.t :=
  Podcast.mk "Motion" "A debate." None "http://cdn/short.mp3" "audio/mpeg" "999".

Definition long_b : Podcast.t :=
  Podcast.mk "Motion [Unedited]" "A debate." None "http://cdn/long.mp3"
    "audio/mpeg" "1000".

Definition only_c : Podcast.t :=
  Podcast.mk "Other motion" "A debate." None "http://cdn/c.mp3" "audio/mpeg" "3042".

Definition date_2020 : datetime := mkdatetime 1577836800000000 0.

Definition debate_a : Debate.t := Debate.mk "http://iq2/debates/a" date_2020.
Definition debate_b : Debate.t := Debate.mk "http://iq2/debates/b" epoch_utc.
Definition debate_c : Debate.t := Debate.mk "http://iq2/debates/c" epoch_utc.

(** The world is the list of the requests made so far. *)
Definition get (url : string) (w : list string) : result string * list string :=
  (if (url =? "http://iq2/sitemap.xml")%string then inr "SITEMAP"
   else if (url =? "http://iq2/debates/b")%string then inr "PAGE B"
   else if (url =? "http://iq2/debates/c")%string then inr "PAGE C"
   else inl (RequestException "503 Server Error"),
   w ++ [url]).

Definition site : Library := {|
  World := list string;
  urlparse := fun u =>
    inr (if prefix "file:" u then "file" else "http",
         if prefix "http://iq2" u
         then substring 10 (String.length u - 10) u
         else u);
  session_get := get;
  open_file := fun path w => (inl IOError, w);
  BeautifulSoup := fun body =>
    if (body =? "SITEMAP")%string then sitemap
    else if (body =? "PAGE B")%string then page_b
    else if (body =? "PAGE C")%string then page_c
    else Tag "[document]" [] [];
  parse_date := fun x =>
    match x with
    | Some s => if (s =? "2020-01-01T00:00Z")%string then inr date_2020
                else inl ValueError
    | None => inl ValueError
    end;
  strip := fun s => s;
  strftime_rfc822 := fun d => "Thu, 01 Jan 1970 00:00:00 -0000";
  strftime_raises := fun d => None;
  _get_content_length := fun u w => (inr "0", w ++ [u])
|}.

End Scenario.

(** ** The content length of an audio file *)

Module Http.

(** What the program reads of a [requests.Response]: the exception
    [raise_for_status()] raises if any, [is_redirect], the request [next]
    of a redirection, and the headers, a dictionary whose keys are
    distinct up to case, in the order of iteration. *)
Record response : Type := mk {
  raise_for_status : option exn;
  is_redirect : bool;
  next : string;
  headers : list (string * string)
}.

(** A session: [session.head(url, timeout)] and [session.send(request,
    timeout)] answer with a response or raise, and change the network. *)
Class Session : Type := {
  Net : Type;
  session_head : string -> Net -> result response * Net;
  session_send : string -> Net -> result response * Net
}.

(** [c.lower()] and [s.lower()], for the letters of ASCII; no other
    character lowers to a letter of [content-length]. *)
Definition lower_ascii (a : ascii) : ascii :=
  let n := nat_of_ascii a in
  if ((65 <=? n) && (n <=? 90))%nat then ascii_of_nat (n + 32) else a.

Fixpoint lower (s : string) : string :=
  match s with
  | EmptyString => EmptyString
  | String a s' => String (lower_ascii a) (lower s')
  end.

(** The loop over [resp.headers], and the [return 0] after it, as the
    text that [format] makes of the value returned. *)
Fixpoint content_length_header (hs : list (string * string)) : string :=
  match hs with
  | [] => "0"
  | (key, value) :: rest =>
      if (lower key =? "content-length")%string then value
      else content_length_header rest
  end.

Section GetContentLength.

Context {Sess : Session}.

(** [while resp.is_redirect: resp = session.send(resp.next); 
    resp.raise_for_status()], for at most [fuel] redirections: [None]
    when they are not exhausted by then. *)
Fixpoint follow_redirects (fuel : nat) (resp : response) (w : Net)
    : option (result response * Net) :=
  if is_redirect resp
  then match fuel with
       | O => None
       | S fuel' =>
           match session_send (next resp) w with
           | (inl e, w') => Some (inl e, w')
           | (inr resp', w') =>
               match raise_for_status resp' with
               | Some e => Some (inl e, w')
               | None => follow_redirects fuel' resp' w'
               end
           end
       end
  else Some (inr resp, w).

(** [final], with the network in the state [w'], is what the redirections
    lead to from the response [resp] received in the state [w]: each
    response on the way is a redirection, and the response to the request
    that follows it passes [raise_for_status]. *)
Inductive redirects_to : response -> Net -> response -> Net -> Prop :=
| redirects_here : forall resp w, redirects_to resp w resp w
| redirects_on : forall resp w resp' w1 final w',
    is_redirect resp = true ->
    session_send (next resp) w = (inr resp', w1) ->
    raise_for_status resp' = None ->
    redirects_to resp' w1 final w' ->
    redirects_to resp w final w'.

Definition _get_content_length (fuel : nat) (url : string) (w : Net)
    : option (result string * Net) :=
  match session_head url w with
  | (inl e, w') => Some (inl e, w')
  | (inr resp, w') =>
      match raise_for_status resp with
      | Some e => Some (inl e, w')
      | None =>
          match follow_redirects fuel resp w' with
          | Some (inr final, w'') =>
              Some (inr (content_length_header (headers final)), w'')
          | Some (inl e, w'') => Some (inl e, w'')
          | None => None
          end
      end
  end.

End GetContentLength.

End Http.

(** ** More of the small site *)

Module Cases.

(** A page with no description block. *)
Definition page_plain : node :=
  Tag "[document]" []
    [Tag "div" [("id", "debate-podcasts")]
       [Scenario.podcast_block
          (Scenario.audio "Motion" "60" [Scenario.source "http://cdn/m.mp3"])]].

Definition meta (attrs : list (string * string)) : node :=
  Tag "meta" (("property", "article:published_time") :: attrs) [].

Definition page_with (m : node) : node :=
  Tag "[document]" []
    [m;
     Tag "div" [("class", "details")] [NavigableString "A debate."];
     Tag "div" [("id", "debate-podcasts")]
       [Scenario.podcast_block
          (Scenario.audio "Motion" "60" [Scenario.source "http://cdn/m.mp3"])]].

(** The published time is no date, and a meta element with no content. *)
Definition page_undated : node := page_with (meta [("content", "soon")]).
Definition page_no_content : node := page_with (meta []).

Definition motion : Podcast.t :=
  Podcast.mk "Motion" "A debate." None "http://cdn/m.mp3" "audio/mpeg" "60".

(** The small site, where the page of debate a has no description block
    and the length of no audio file can be had. *)
Definition get (url : string) (w : list string) : result string * list string :=
  (if (url =? "http://iq2/sitemap.xml")%string then inr "SITEMAP"
   else if (url =? "http://iq2/debates/a")%string then inr "PAGE A"
   else if (url =? "http://iq2/debates/b")%string then inr "PAGE B"
   else if (url =? "http://iq2/debates/c")%string then inr "PAGE C"
   else inl (RequestException "503 Server Error"),
   w ++ [url]).

Definition site : Library := {|
  World := list string;
  urlparse := urlparse (Library := Scenario.site);
  session_get := get;
  open_file := fun path w => (inl IOError, w);
  BeautifulSoup := fun body =>
    if (body =? "SITEMAP")%string then Scenario.sitemap
    else if (body =? "PAGE A")%string then page_plain
    else if (body =? "PAGE B")%string then Scenario.page_b
    else if (body =? "PAGE C")%string then Scenario.page_c
    else Tag "[document]" [] [];
  parse_date := parse_date (Library := Scenario.site);
  strip := fun s => s;
  strftime_rfc822 := fun d => "Thu, 01 Jan 1970 00:00:00 -0000";
  strftime_raises := fun d => None;
  _get_content_length := fun u w => (inl (RequestException "timed out"), w ++ [u])
|}.

(** A sitemap whose second entry has a [<lastmod>] on which the parser
    raises TypeError. *)
Definition url_odd : node :=
  Tag "url" [] [Scenario.element "loc" "http://iq2/debates/odd";
                Tag "lastmod" [] []].

Definition sitemap_odd : node :=
  Tag "[document]" [] [Tag "urlset" [] [Scenario.url_a; url_odd; Scenario.url_c]].

Definition strict : Library := {|
  World := list string;
  urlparse := urlparse (Library := Scenario.site);
  session_get := get;
  open_file := fun path w => (inl IOError, w);
  BeautifulSoup := BeautifulSoup (Library := site);
  parse_date := fun x =>
    match x with
    | Some s => parse_date (Library := Scenario.site) (Some s)
    | None => inl TypeError
    end;
  strip := fun s => s;
  strftime_rfc822 := fun d => "Thu, 01 Jan 1970 00:00:00 -0000";
  strftime_raises := fun d => None;
  _get_content_length := fun u w => (inr "0", w)
|}.

(** A server that redirects [http://cdn/m.mp3] once, to a response with a
    Content-Length header. *)
Definition moved : Http.response :=
  Http.mk None true "http://cdn2/m.mp3" [("Location", "http://cdn2/m.mp3")].

Definition found : Http.response :=
  Http.mk None false EmptyString
    [("Content-Type", "audio/mpeg"); ("Content-LENGTH", "4096")].

Definition cdn : Http.Session := {|
  Http.Net := list string;
  Http.session_head := fun u w =>
    (if (u =? "http://cdn/m.mp3")%string then inr moved
     else inl (RequestException "404 Not Found"), w ++ [u]);
  Http.session_send := fun u w =>
    (if (u =? "http://cdn2/m.mp3")%string then inr found
     else inl (RequestException "404 Not Found"), w ++ [u])
|}.

End Cases.

(** No character of [s] is an angle bracket or a double quote. *)
Fixpoint markup_free (s : string) : bool :=
  match s with
  | EmptyString => true
  | String a s' =>
      negb (Ascii.eqb a "<" || Ascii.eqb a ">" || Ascii.eqb a (ascii_of_nat 34))
      && markup_free s'
  end.

(** The two writes that close the document. *)
Definition rss_footer : list string :=
  [("</channel>" ++ nl)%string; ("</rss>" ++ nl)%string].

(** * Properties *)

(** ** Generators *)

Lemma gen_seq_stop_l {A : Type} (g : gen A) : gen_seq gen_stop g = g.
Proof. destruct g; reflexivity. Qed.

Lemma gen_seq_assoc {A : Type} (g1 g2 g3 : gen A) :
  gen_seq (gen_seq g1 g2) g3 = gen_seq g1 (gen_seq g2 g3).
Proof.
  destruct g1 as [xs [e|]], g2 as [ys [e'|]], g3 as [zs o]; simpl;
    try reflexivity.
  now rewrite app_assoc.
Qed.

Lemma gen_for_app {A B : Type} (l1 l2 : list A) (body : A -> gen B) :
  gen_for (l1 ++ l2) body = gen_seq (gen_for l1 body) (gen_for l2 body).
Proof.
  induction l1 as [|x l1 IH].
  - symmetry. apply gen_seq_stop_l.
  - simpl. now rewrite IH, gen_seq_assoc.
Qed.

Lemma gen_seq_yielded {A : Type} (g1 g2 : gen A) (a : A) :
  In a (yielded (gen_seq g1 g2)) -> In a (yielded g1) \/ In a (yielded g2).
Proof.
  destruct g1 as [xs [e|]]; simpl; auto.
  unfold yielded; simpl. intros H. apply in_app_or in H. tauto.
Qed.

Lemma gen_seq_raised {A : Type} (g1 g2 : gen A) (e : exn) :
  raised (gen_seq g1 g2) = Some e -> raised g1 = Some e \/ raised g2 = Some e.
Proof. destruct g1 as [xs [e'|]]; simpl; auto. Qed.

Lemma gen_for_yielded {A B : Type} (l : list A) (body : A -> gen B) (b : B) :
  In b (yielded (gen_for l body)) ->
  exists a, In a l /\ In b (yielded (body a)).
Proof.
  induction l as [|x l IH]; simpl; [tauto|].
  intros H. apply gen_seq_yielded in H. destruct H as [H|H].
  - exists x; auto.
  - destruct (IH H) as (a & Ha & Hb). exists a; auto.
Qed.

Lemma gen_for_raised {A B : Type} (l : list A) (body : A -> gen B) (e : exn) :
  raised (gen_for l body) = Some e ->
  exists a, In a l /\ raised (body a) = Some e.
Proof.
  induction l as [|x l IH]; simpl; [discriminate|].
  intros H. apply gen_seq_raised in H. destruct H as [H|H].
  - exists x; auto.
  - destruct (IH H) as (a & Ha & Hb). exists a; auto.
Qed.

(** ** The parse tree *)

Lemma descendants_contents (n : node) :
  descendants n = descendants_of_list (tag_contents n).
Proof.
  destruct n as [nm attrs cs|s|s]; simpl; [|reflexivity|reflexivity].
  induction cs as [|c cs IH]; simpl; [reflexivity|].
  now rewrite IH.
Qed.

Lemma descendants_sound (n x : node) :
  In x (descendants n) -> descendant x n.
Proof.
  revert x. induction n as [nm attrs cs IH | s | s] using node_forall_ind;
    intros x; rewrite descendants_contents; simpl; [|tauto|tauto].
  unfold descendants_of_list. rewrite in_flat_map.
  intros (c & Hc & Hx). simpl in Hx. destruct Hx as [<-|Hx].
  - now apply descendant_child.
  - apply descendant_below with (c := c); [exact Hc|].
    rewrite Forall_forall in IH. now apply IH.
Qed.

Lemma descendants_complete (n x : node) :
  descendant x n -> In x (descendants n).
Proof.
  induction 1 as [t Hin | c t Hin Hxc IH];
    rewrite descendants_contents; unfold descendants_of_list;
    rewrite in_flat_map.
  - exists x; simpl; auto.
  - exists c; simpl; auto.
Qed.

Lemma find_all_spec (st : strainer) (n x : node) :
  In x (find_all st n) <-> descendant x n /\ matches st x = true.
Proof.
  unfold find_all. rewrite filter_In. split.
  - intros [H1 H2]. split; [now apply descendants_sound | exact H2].
  - intros [H1 H2]. split; [now apply descendants_complete | exact H2].
Qed.

(** ** The order on strings, and max and min under it *)

Lemma ascii_compare_eq (a b : ascii) : N_of_ascii a = N_of_ascii b -> a = b.
Proof.
  intros H. rewrite <- (ascii_N_embedding a), <- (ascii_N_embedding b).
  now rewrite H.
Qed.

Lemma string_compare_refl (s : string) : String.compare s s = Eq.
Proof.
  induction s as [|a s IH]; simpl; [reflexivity|].
  unfold Ascii.compare. now rewrite N.compare_refl.
Qed.

Lemma string_compare_not_gt_trans (a b c : string) :
  String.compare a b <> Gt -> String.compare b c <> Gt ->
  String.compare a c <> Gt.
Proof.
  revert b c. induction a as [|x a IH]; intros [|y b] [|z c]; simpl;
    try congruence.
  unfold Ascii.compare.
  destruct (N.compare_spec (N_of_ascii x) (N_of_ascii y)) as [Hxy|Hxy|Hxy];
    destruct (N.compare_spec (N_of_ascii y) (N_of_ascii z)) as [Hyz|Hyz|Hyz];
    destruct (N.compare_spec (N_of_ascii x) (N_of_ascii z)) as [Hxz|Hxz|Hxz];
    try congruence; try lia.
  apply IH.
Qed.

Lemma string_leb_refl (s : string) : String.leb s s = true.
Proof. unfold String.leb. now rewrite string_compare_refl. Qed.

Lemma string_leb_trans (a b c : string) :
  String.leb a b = true -> String.leb b c = true -> String.leb a c = true.
Proof.
  unfold String.leb. intros Hab Hbc.
  pose proof (string_compare_not_gt_trans a b c) as H.
  destruct (String.compare a b); destruct (String.compare b c);
    destruct (String.compare a c); try discriminate; try reflexivity;
    exfalso; apply H; congruence.
Qed.

Lemma string_ltb_leb (a b : string) : String.ltb a b = true -> String.leb a b = true.
Proof. unfold String.ltb, String.leb. now destruct (String.compare a b). Qed.

Lemma string_not_ltb_leb (a b : string) :
  String.ltb a b = false -> String.leb b a = true.
Proof.
  unfold String.ltb, String.leb. rewrite (String.compare_antisym a b).
  now destruct (String.compare b a).
Qed.

Lemma max_by_spec {A : Type} (key : A -> string) (l : list A) (x : A) :
  In (max_by key x l) (x :: l)
  /\ forall c, In c (x :: l) -> String.leb (key c) (key (max_by key x l)) = true.
Proof.
  unfold max_by. revert x. induction l as [|y l IH]; intros x; simpl.
  - split; [now left|]. intros c [<-|[]]. apply string_leb_refl.
  - destruct (IH (if String.ltb (key x) (key y) then y else x)) as [Hin Hmax].
    split.
    + simpl in Hin. destruct Hin as [Hin|Hin]; [|now right; right].
      rewrite <- Hin. destruct (String.ltb (key x) (key y)); auto.
    + assert (Hx : String.leb (key x)
                (key (if String.ltb (key x) (key y) then y else x)) = true).
      { destruct (String.ltb (key x) (key y)) eqn:E;
          [now apply string_ltb_leb | apply string_leb_refl]. }
      assert (Hy : String.leb (key y)
                (key (if String.ltb (key x) (key y) then y else x)) = true).
      { destruct (String.ltb (key x) (key y)) eqn:E;
          [apply string_leb_refl | now apply string_not_ltb_leb]. }
      intros c [<-|[<-|Hc]].
      * eapply string_leb_trans; [exact Hx|]. apply Hmax. now left.
      * eapply string_leb_trans; [exact Hy|]. apply Hmax. now left.
      * apply Hmax. now right.
Qed.

Lemma min_by_spec {A : Type} (key : A -> string) (l : list A) (x : A) :
  In (min_by key x l) (x :: l)
  /\ forall c, In c (x :: l) -> String.leb (key (min_by key x l)) (key c) = true.
Proof.
  unfold min_by. revert x. induction l as [|y l IH]; intros x; simpl.
  - split; [now left|]. intros c [<-|[]]. apply string_leb_refl.
  - destruct (IH (if String.ltb (key y) (key x) then y else x)) as [Hin Hmin].
    split.
    + simpl in Hin. destruct Hin as [Hin|Hin]; [|now right; right].
      rewrite <- Hin. destruct (String.ltb (key y) (key x)); auto.
    + assert (Hx : String.leb
                (key (if String.ltb (key y) (key x) then y else x)) (key x) = true).
      { destruct (String.ltb (key y) (key x)) eqn:E;
          [now apply string_ltb_leb | apply string_leb_refl]. }
      assert (Hy : String.leb
                (key (if String.ltb (key y) (key x) then y else x)) (key y) = true).
      { destruct (String.ltb (key y) (key x)) eqn:E;
          [apply string_leb_refl | now apply string_not_ltb_leb]. }
      intros c [<-|[<-|Hc]].
      * eapply string_leb_trans; [|exact Hx]. apply Hmin. now left.
      * eapply string_leb_trans; [|exact Hy]. apply Hmin. now left.
      * apply Hmin. now right.
Qed.

(** ** The debate page extractor *)

Lemma podcast_of_audio_inr (desc : string) (pub_date : option datetime)
    (src : node) (p : Podcast.t) :
  podcast_of_audio desc pub_date src = inr p ->
  exists source,
    find (by_name "source") src = Some source
    /\ getitem src "data-title" = inr (Podcast.title p)
    /\ getitem source "src" = inr (Podcast.url p)
    /\ getitem source "type" = inr (Podcast.type p)
    /\ getitem src "data-duration" = inr (Podcast.duration p)
    /\ Podcast.desc p = desc
    /\ Podcast.pubDate p = pub_date.
Proof.
  unfold podcast_of_audio, Py.bind.
  destruct (getitem src "data-title") as [e|t] eqn:Et; [discriminate|].
  destruct (find (by_name "source") src) as [source|]; simpl; [|discriminate].
  destruct (getitem source "src") as [e|u] eqn:Eu; [discriminate|].
  destruct (getitem source "type") as [e|ty] eqn:Ety; [discriminate|].
  destruct (getitem src "data-duration") as [e|d] eqn:Ed; [discriminate|].
  intros H. injection H as <-. exists source. simpl.
  repeat split; assumption || reflexivity.
Qed.

Lemma podcast_of_audio_no_source (desc : string) (pub_date : option datetime)
    (src : node) (t : string) :
  getitem src "data-title" = inr t ->
  find (by_name "source") src = None ->
  podcast_of_audio desc pub_date src = inl TypeError.
Proof.
  intros Ht Hs. unfold podcast_of_audio, Py.bind. now rewrite Ht, Hs.
Qed.

Lemma nested_loops_in_nesting (soup elem podcast src : node) :
  In elem (find_all (by_attr "id" "debate-podcasts") soup) ->
  In podcast (find_all (by_attr "class" "panoply-podcast") elem) ->
  In src (find_all (by_name "audio") podcast) ->
  in_nesting soup src.
Proof.
  intros H1 H2 H3. apply find_all_spec in H1, H2, H3.
  exists elem, podcast. tauto.
Qed.

Lemma scan_podcasts_yielded (soup : node) (desc : string)
    (pub_date : option datetime) (p : Podcast.t) :
  In p (yielded (scan_podcasts soup desc pub_date)) ->
  exists src, in_nesting soup src /\ podcast_of_audio desc pub_date src = inr p.
Proof.
  unfold scan_podcasts. intros H.
  apply gen_for_yielded in H. destruct H as (elem & He & H).
  apply gen_for_yielded in H. destruct H as (podcast & Hp & H).
  apply gen_for_yielded in H. destruct H as (src & Hs & H).
  exists src. split; [now apply nested_loops_in_nesting with elem podcast|].
  destruct (podcast_of_audio desc pub_date src) as [e|q]; simpl in H.
  - contradiction.
  - destruct H as [->|[]]. reflexivity.
Qed.

Lemma scan_podcasts_raised (soup : node) (desc : string)
    (pub_date : option datetime) (e : exn) :
  raised (scan_podcasts soup desc pub_date) = Some e ->
  exists src, in_nesting soup src /\ podcast_of_audio desc pub_date src = inl e.
Proof.
  unfold scan_podcasts. intros H.
  apply gen_for_raised in H. destruct H as (elem & He & H).
  apply gen_for_raised in H. destruct H as (podcast & Hp & H).
  apply gen_for_raised in H. destruct H as (src & Hs & H).
  exists src. split; [now apply nested_loops_in_nesting with elem podcast|].
  destruct (podcast_of_audio desc pub_date src) as [e'|q]; simpl in H.
  - now injection H as ->.
  - discriminate.
Qed.

Lemma gen_for_raises {A B : Type} (l : list A) (body : A -> gen B) (a : A) :
  In a l -> raised (body a) <> None -> raised (gen_for l body) <> None.
Proof.
  induction l as [|x l IH]; simpl; [tauto|].
  intros [->|Hin] Hr.
  - destruct (body a) as [xs [e|]]; simpl in *; congruence.
  - destruct (body x) as [xs [e|]]; simpl; [congruence|]. now apply IH.
Qed.

Lemma scan_podcasts_raises (soup : node) (desc : string)
    (pub_date : option datetime) (src : node) (e : exn) :
  in_nesting soup src ->
  podcast_of_audio desc pub_date src = inl e ->
  raised (scan_podcasts soup desc pub_date) <> None.
Proof.
  intros (elem & podcast & H1 & H2 & H3 & H4 & H5 & H6) He.
  unfold scan_podcasts.
  apply gen_for_raises with (a := elem); [apply find_all_spec; tauto|].
  apply gen_for_raises with (a := podcast); [apply find_all_spec; tauto|].
  apply gen_for_raises with (a := src); [apply find_all_spec; tauto|].
  rewrite He. discriminate.
Qed.

(** C2, as stated, fails: an audio element inside a panoply-podcast block
    of the debate-podcasts block that has no source sub-element does not
    match the pattern, and the extractor does not skip it: reading
    [src.source['src']] raises TypeError and no Podcast is emitted. *)
Lemma audio_without_source_raises :
  find (by_name "source") Scenario.bare_audio = None
  /\ in_nesting Scenario.page_bare Scenario.bare_audio
  /\ scan_podcasts Scenario.page_bare "A debate." None = gen_raise TypeError
  /\ find_podcasts_soup (L := Scenario.site) Scenario.page_bare = gen_raise TypeError.
Proof.
  split; [reflexivity|]. split; [|split; reflexivity].
  apply nested_loops_in_nesting
    with (elem := nth 0 (find_all (by_attr "id" "debate-podcasts")
                           Scenario.page_bare) Scenario.bare_audio)
         (podcast := nth 0 (find_all (by_attr "class" "panoply-podcast")
                              Scenario.page_bare) Scenario.bare_audio);
    vm_compute; auto.
Qed.

(** C2, amended: what lies outside the nesting debate-podcasts block,
    panoply-podcast block, audio element is skipped silently.  Every
    Podcast the scan emits is built from an audio element in that nesting
    which has a source sub-element, and every error the scan raises is
    raised by the construction of the Podcast of an audio element in that
    nesting: no other element of the document emits or raises anything.
    An audio element in the nesting is not skipped: when its Podcast cannot
    be built, which is so when it has no source sub-element, the scan ends
    with an error. *)
Theorem scan_podcasts_skips_outside_nesting :
  forall (soup : node) (desc : string) (pub_date : option datetime),
    (forall p, In p (yielded (scan_podcasts soup desc pub_date)) ->
       exists src source,
         in_nesting soup src
         /\ find (by_name "source") src = Some source
         /\ podcast_of_audio desc pub_date src = inr p)
    /\ (forall e, raised (scan_podcasts soup desc pub_date) = Some e ->
          exists src,
            in_nesting soup src
            /\ podcast_of_audio desc pub_date src = inl e)
    /\ (forall src e,
          in_nesting soup src ->
          podcast_of_audio desc pub_date src = inl e ->
          raised (scan_podcasts soup desc pub_date) <> None)
    /\ (forall src title,
          getitem src "data-title" = inr title ->
          find (by_name "source") src = None ->
          podcast_of_audio desc pub_date src = inl TypeError).
Proof.
  intros soup desc pub_date. split; [|split; [|split]].
  - intros p H. destruct (scan_podcasts_yielded _ _ _ _ H) as (src & Hn & Hp).
    destruct (podcast_of_audio_inr _ _ _ _ Hp) as (source & Hs & _).
    now exists src, source.
  - intros e H. now apply scan_podcasts_raised.
  - intros src e. apply scan_podcasts_raises.
  - intros src title. apply podcast_of_audio_no_source.
Qed.

(** The amended statement at the page with two recordings: both come from
    the nesting, and nothing is raised. *)
Lemma scan_podcasts_skips_outside_nesting_witness :
  (exists src source,
     in_nesting Scenario.page_b src
     /\ find (by_name "source") src = Some source
     /\ podcast_of_audio "A debate." None src = inr Scenario.long_b)
  /\ raised (scan_podcasts Scenario.page_b "A debate." None) = None.
Proof.
  split.
  - apply (proj1 (scan_podcasts_skips_outside_nesting
                    Scenario.page_b "A debate." None)).
    vm_compute. auto.
  - reflexivity.
Defined.

(** C8: the duration of an emitted Podcast is the text of the
    data-duration attribute of its audio element, and the selections made
    downstream compare these texts as strings: the unedited filter yields a
    candidate whose duration is greatest in the lexicographic order, the
    edited filter one whose duration is least, so that a duration of 999
    ranks above a duration of 1000. *)
Theorem duration_is_text :
  (forall (soup : node) (desc : string) (pub_date : option datetime) (p : Podcast.t),
      In p (yielded (scan_podcasts soup desc pub_date)) ->
      exists src,
        in_nesting soup src
        /\ getitem src "data-duration" = inr (Podcast.duration p))
  /\ (forall since debate podcasts p c,
        unedited_podcast_filter since debate (podcasts, None) = gen_yield p ->
        In c (podcast_list_of since podcasts) ->
        String.leb (Podcast.duration c) (Podcast.duration p) = true)
  /\ (forall since debate podcasts p c,
        edited_podcast_filter since debate (podcasts, None) = gen_yield p ->
        In c (podcast_list_of since podcasts) ->
        String.leb (Podcast.duration p) (Podcast.duration c) = true)
  /\ unedited_podcast_filter None Scenario.debate_b
       ([Scenario.short_b; Scenario.long_b], None) = gen_yield Scenario.short_b.
Proof.
  repeat split.
  - intros soup desc pub_date p H.
    destruct (scan_podcasts_yielded _ _ _ _ H) as (src & Hn & Hp).
    destruct (podcast_of_audio_inr _ _ _ _ Hp) as (source & _ & _ & _ & _ & Hd & _).
    now exists src.
  - intros since debate podcasts p c. unfold unedited_podcast_filter. simpl.
    destruct (podcast_list_of since podcasts) as [|x l]; [discriminate|].
    intros H Hc. injection H as <-. now apply max_by_spec.
  - intros since debate podcasts p c. unfold edited_podcast_filter. simpl.
    destruct (podcast_list_of since podcasts) as [|x l]; [discriminate|].
    intros H Hc. injection H as <-. now apply min_by_spec.
Qed.

Lemma duration_is_text_witness :
  (exists src,
      in_nesting Scenario.page_b src
      /\ getitem src "data-duration" = inr "1000")
  /\ String.leb "1000" "999" = true.
Proof.
  split.
  - apply (proj1 duration_is_text Scenario.page_b "A debate." None Scenario.long_b).
    vm_compute. auto.
  - apply (proj1 (proj2 duration_is_text) None Scenario.debate_b
             [Scenario.short_b; Scenario.long_b] Scenario.short_b Scenario.long_b).
    + reflexivity.
    + vm_compute. auto.
Defined.

(** ** The selection of the unedited mode *)

Lemma unedited_at_most_one (since : option datetime) (debate : Debate.t)
    (podcasts : gen Podcast.t) :
  (List.length (yielded (unedited_podcast_filter since debate podcasts)) <= 1)%nat.
Proof.
  unfold unedited_podcast_filter.
  destruct (raised podcasts); simpl; [lia|].
  destruct (podcast_list_of since (yielded podcasts)); simpl; lia.
Qed.

Lemma unedited_none_without_candidates (since : option datetime)
    (debate : Debate.t) (podcasts : list Podcast.t) :
  podcast_list_of since podcasts = [] ->
  unedited_podcast_filter since debate (podcasts, None) = gen_stop.
Proof. unfold unedited_podcast_filter. simpl. now intros ->. Qed.

(** C1 at a page with a recording of 999 seconds and one of 1000 seconds:
    the unedited filter yields the recording of 999 seconds, the durations
    being compared as strings, and that is the pair the run produces. *)
Theorem unedited_yields_shorter_recording :
  find_podcasts_soup (L := Scenario.site) Scenario.page_b
    = ([Scenario.short_b; Scenario.long_b], None)
  /\ unedited_podcast_filter None Scenario.debate_b
       ([Scenario.short_b; Scenario.long_b], None) = gen_yield Scenario.short_b
  /\ duration_seconds Scenario.short_b = Some 999
  /\ duration_seconds Scenario.long_b = Some 1000
  /\ In (Scenario.debate_b, Scenario.short_b)
        (yielded (fst (main_podcast_tuples (L := Scenario.site)
           (Args.mk AudioUnedited None true default_title "http://iq2/sitemap.xml")
           0 []))).
Proof. repeat split; vm_compute; auto. Qed.

(** ** The orchestrator *)

Section Orchestrator.

Context {L : Library}.

Lemma find_podcasts_fetch_fails (url : string) (w w' : World) (e : exn) :
  read_body url w = (inl e, w') -> find_podcasts url w = (gen_raise e, w').
Proof. unfold find_podcasts. now intros ->. Qed.

Lemma find_debates_fetch_fails (url : string) (w w' : World) (e : exn) :
  read_body url w = (inl e, w') -> find_debates url w = (gen_raise e, w').
Proof. unfold find_debates. now intros ->. Qed.

(** The filters of the program yield nothing of their own: when the page
    cannot be had, the exception is what comes out of them. *)
Lemma main_podcast_filter_raise (audio : audio_mode) (since : option datetime)
    (debate : Debate.t) (e : exn) :
  main_podcast_filter audio since debate (gen_raise e) = gen_raise e.
Proof. destruct audio, since; reflexivity. Qed.

Lemma main_debate_filter_raise (since : option datetime) (e : exn) :
  main_debate_filter since (gen_raise e) = gen_raise e.
Proof. destruct since; reflexivity. Qed.

Lemma debate_podcasts_loop_skip (audio : audio_mode) (since : option datetime)
    (debate : Debate.t) (rest : list Debate.t) (w w' : World) (what : string) :
  read_body (Debate.url debate) w = (inl (RequestException what), w') ->
  debate_podcasts_loop (main_podcast_filter audio since) (debate :: rest) w
  = debate_podcasts_loop (main_podcast_filter audio since) rest w'.
Proof.
  intros H. simpl. rewrite (find_podcasts_fetch_fails _ _ _ _ H).
  rewrite main_podcast_filter_raise. simpl.
  destruct (debate_podcasts_loop (main_podcast_filter audio since) rest w')
    as [[xs o] w2].
  reflexivity.
Qed.

Lemma debate_podcasts_loop_app (pf : podcast_filter_t)
    (before rest : list Debate.t) (w w1 : World)
    (found : list (Debate.t * Podcast.t)) :
  debate_podcasts_loop pf before w = ((found, None), w1) ->
  debate_podcasts_loop pf (before ++ rest) w
  = (let '(g, w2) := debate_podcasts_loop pf rest w1 in
     (gen_seq (found, None) g, w2)).
Proof.
  revert w found. induction before as [|d before IH]; intros w found H.
  - simpl in H. injection H as <- <-. simpl.
    destruct (debate_podcasts_loop pf rest w) as [[xs o] w2]. reflexivity.
  - simpl in H |- *.
    destruct (find_podcasts (Debate.url d) w) as [podcasts w0].
    destruct (pf d podcasts) as [ps ending].
    assert (Hgo : forall g w2,
      debate_podcasts_loop pf before w0 = (g, w2) ->
      (gen_seq (map (fun podcast => (d, podcast)) ps, None) g, w2)
        = ((found, None), w1) ->
      (let '(g0, w3) := debate_podcasts_loop pf (before ++ rest) w0 in
       (gen_seq (map (fun podcast => (d, podcast)) ps, None) g0, w3))
      = (let '(g0, w3) := debate_podcasts_loop pf rest w1 in
         (gen_seq (found, None) g0, w3))).
    { intros [xs o] w2 Hloop Heq. simpl in Heq.
      injection Heq as <- -> ->.
      rewrite (IH _ _ Hloop).
      destruct (debate_podcasts_loop pf rest w1) as [[ys o'] w3]. simpl.
      now rewrite app_assoc. }
    destruct ending as [e|].
    + destruct (is_RequestException e); [|discriminate].
      destruct (debate_podcasts_loop pf before w0) as [g w2] eqn:Hloop.
      exact (Hgo g w2 eq_refl H).
    + destruct (debate_podcasts_loop pf before w0) as [g w2] eqn:Hloop.
      exact (Hgo g w2 eq_refl H).
Qed.

(** C3: with any of the podcast filters of the program, a debate whose
    page cannot be fetched (a RequestException) adds no pair, and the loop
    goes on with the debates that follow, from the state of the world the
    failed request left: the pairs of [find_debate_podcasts] are those of
    the debates before it, then those of the debates after it; and when the
    sitemap cannot be fetched, the exception comes out of
    [find_debate_podcasts] before any pair. *)
Theorem find_debate_podcasts_fetch_failures :
  forall (audio : audio_mode) (since : option datetime),
    (forall url w debates w0 before debate rest found w1 what w2,
        find_debates url w = (debates, w0) ->
        yielded (main_debate_filter since debates) = before ++ debate :: rest ->
        debate_podcasts_loop (main_podcast_filter audio since) before w0
          = ((found, None), w1) ->
        read_body (Debate.url debate) w1 = (inl (RequestException what), w2) ->
        find_debate_podcasts url (main_debate_filter since)
          (main_podcast_filter audio since) w
        = (let '(g, w3) :=
             debate_podcasts_loop (main_podcast_filter audio since) rest w2 in
           (gen_seq (gen_seq (found, None) g)
              (match raised (main_debate_filter since debates) with
               | Some e => gen_raise e
               | None => gen_stop
               end), w3)))
    /\ (forall before debate rest w found w1 what w2,
        debate_podcasts_loop (main_podcast_filter audio since) before w
          = ((found, None), w1) ->
        read_body (Debate.url debate) w1 = (inl (RequestException what), w2) ->
        debate_podcasts_loop (main_podcast_filter audio since)
          (before ++ debate :: rest) w
           = (let '(g, w3) :=
                debate_podcasts_loop (main_podcast_filter audio since) rest w2 in
              (gen_seq (found, None) g, w3)))
    /\ (forall url w e w1,
          read_body url w = (inl e, w1) ->
          find_debate_podcasts url (main_debate_filter since)
            (main_podcast_filter audio since) w = (gen_raise e, w1)).
Proof.
  intros audio since.
  assert (Hloop : forall before debate rest w found w1 what w2,
    debate_podcasts_loop (main_podcast_filter audio since) before w
      = ((found, None), w1) ->
    read_body (Debate.url debate) w1 = (inl (RequestException what), w2) ->
    debate_podcasts_loop (main_podcast_filter audio since)
      (before ++ debate :: rest) w
    = (let '(g, w3) :=
         debate_podcasts_loop (main_podcast_filter audio since) rest w2 in
       (gen_seq (found, None) g, w3))).
  { intros before debate rest w found w1 what w2 Hbefore Hfetch.
    rewrite (debate_podcasts_loop_app _ _ _ _ _ _ Hbefore).
    now rewrite (debate_podcasts_loop_skip _ _ _ _ _ _ _ Hfetch). }
  split; [|split].
  - intros url w debates w0 before debate rest found w1 what w2
      Hsitemap Hdebates Hbefore Hfetch.
    unfold find_debate_podcasts. rewrite Hsitemap, Hdebates.
    rewrite (Hloop _ _ _ _ _ _ _ _ Hbefore Hfetch).
    now destruct (debate_podcasts_loop (main_podcast_filter audio since) rest w2).
  - exact Hloop.
  - intros url w e w1 Hfetch. unfold find_debate_podcasts.
    rewrite (find_debates_fetch_fails _ _ _ _ Hfetch).
    rewrite main_debate_filter_raise. reflexivity.
Qed.

End Orchestrator.

(** On the small site the page of the first debate answers 503: the pairs
    are those of the two debates that follow; and a sitemap that answers
    503 ends the run with no pair and no page fetched. *)
Lemma find_debate_podcasts_fetch_failures_witness :
  find_debate_podcasts (L := Scenario.site) "http://iq2/sitemap.xml"
    (main_debate_filter None) (main_podcast_filter AudioAll None) []
  = (let '(g, w3) :=
       debate_podcasts_loop (L := Scenario.site)
         (main_podcast_filter AudioAll None)
         [Scenario.debate_b; Scenario.debate_c]
         ["http://iq2/sitemap.xml"; "http://iq2/debates/a"] in
     (gen_seq (gen_seq ([], None) g) gen_stop, w3))
  /\ find_debate_podcasts (L := Scenario.site) "http://iq2/gone.xml"
       (main_debate_filter None) (main_podcast_filter AudioAll None) []
     = (gen_raise (RequestException "503 Server Error"), ["http://iq2/gone.xml"]).
Proof.
  split.
  - apply (proj1 (find_debate_podcasts_fetch_failures (L := Scenario.site)
                    AudioAll None)
             "http://iq2/sitemap.xml" []
             ([Scenario.debate_a; Scenario.debate_b; Scenario.debate_c], None)
             ["http://iq2/sitemap.xml"]
             [] Scenario.debate_a [Scenario.debate_b; Scenario.debate_c]
             [] ["http://iq2/sitemap.xml"] "503 Server Error"
             ["http://iq2/sitemap.xml"; "http://iq2/debates/a"]);
      reflexivity.
  - apply (proj2 (proj2 (find_debate_podcasts_fetch_failures (L := Scenario.site)
                    AudioAll None))); reflexivity.
Defined.

(** ** Ordering *)

Lemma insert_desc_perm {A : Type} (key : A -> Z) (x : A) (l : list A) :
  Permutation (x :: l) (insert_desc key x l).
Proof.
  induction l as [|y l IH]; simpl; [reflexivity|].
  destruct (key x <? key y); [|reflexivity].
  rewrite perm_swap. now apply perm_skip.
Qed.

Lemma sorted_reverse_perm {A : Type} (key : A -> Z) (l : list A) :
  Permutation l (sorted_reverse key l).
Proof.
  induction l as [|x l IH]; simpl; [reflexivity|].
  rewrite <- insert_desc_perm. now apply perm_skip.
Qed.

Lemma insert_desc_sorted {A : Type} (key : A -> Z) (x : A) (l : list A) :
  StronglySorted (fun a b => key b <= key a) l ->
  StronglySorted (fun a b => key b <= key a) (insert_desc key x l).
Proof.
  induction 1 as [|y l Hs IH Hall]; simpl.
  - constructor; constructor.
  - destruct (Z.ltb_spec (key x) (key y)) as [Hlt|Hge].
    + constructor; [exact IH|].
      apply (Permutation_Forall (insert_desc_perm key x l)).
      constructor; [lia | exact Hall].
    + constructor; [now constructor|].
      constructor; [exact Hge|].
      eapply Forall_impl; [|exact Hall]. simpl. intros a Ha. lia.
Qed.

Lemma sorted_reverse_sorted {A : Type} (key : A -> Z) (l : list A) :
  StronglySorted (fun a b => key b <= key a) (sorted_reverse key l).
Proof.
  induction l as [|x l IH]; simpl; [constructor|].
  now apply insert_desc_sorted.
Qed.

(** The sort is stable: a sequence already in order is left as it is. *)
Lemma sorted_reverse_of_sorted {A : Type} (key : A -> Z) (l : list A) :
  StronglySorted (fun a b => key b <= key a) l -> sorted_reverse key l = l.
Proof.
  induction 1 as [|x l Hs IH Hall]; simpl; [reflexivity|].
  rewrite IH. destruct l as [|y l]; simpl; [reflexivity|].
  inversion Hall as [|? ? Hy _]; subst.
  destruct (Z.ltb_spec (key x) (key y)); [lia | reflexivity].
Qed.

Section Main.

Context {L : Library}.

(** C4: with sorting on, the pairs [main] hands to the renderer are in
    non-increasing order of effective timestamp (the publish date of the
    podcast when it has one, else the last modification of the debate), and
    they are the pairs of the orchestrator in another order; with sorting
    off, they are what the orchestrator produces, in its order. *)
Theorem main_order :
  forall (args : Args.t) (now : Z) (w : World),
    (Args.sort args = true ->
     non_increasing (yielded (fst (main_podcast_tuples args now w))))
    /\ (Args.sort args = true ->
        forall since,
          main_since now (Args.since args) = inr since ->
          raised (fst (find_debate_podcasts (Args.url args)
                         (main_debate_filter since)
                         (main_podcast_filter (Args.audio args) since) w)) = None ->
          Permutation
            (yielded (fst (find_debate_podcasts (Args.url args)
                             (main_debate_filter since)
                             (main_podcast_filter (Args.audio args) since) w)))
            (yielded (fst (main_podcast_tuples args now w))))
    /\ (Args.sort args = false ->
        forall since,
          main_since now (Args.since args) = inr since ->
          main_podcast_tuples args now w
          = find_debate_podcasts (Args.url args) (main_debate_filter since)
              (main_podcast_filter (Args.audio args) since) w).
Proof.
  intros args now w. unfold main_podcast_tuples. repeat split.
  - intros ->. destruct (main_since now (Args.since args)) as [e|since];
      simpl; [constructor|].
    destruct (find_debate_podcasts _ _ _ w) as [[xs o] w1]. simpl.
    unfold sorted_tuples. destruct o; simpl; [constructor|].
    apply (sorted_reverse_sorted (fun ent => instant (effective_date ent))).
  - intros -> since ->.
    destruct (find_debate_podcasts _ _ _ w) as [[xs o] w1]. simpl.
    intros ->. unfold sorted_tuples. simpl. apply sorted_reverse_perm.
  - intros -> since ->.
    now destruct (find_debate_podcasts _ _ _ w) as [g w1].
Qed.

End Main.

(** On the small site, sorted and unsorted. *)
Lemma main_order_witness :
  non_increasing
    (yielded (fst (main_podcast_tuples (L := Scenario.site)
       (Args.mk AudioAll None true default_title "http://iq2/sitemap.xml") 0 [])))
  /\ main_podcast_tuples (L := Scenario.site)
       (Args.mk AudioAll None false default_title "http://iq2/sitemap.xml") 0 []
     = find_debate_podcasts (L := Scenario.site) "http://iq2/sitemap.xml"
         (main_debate_filter None) (main_podcast_filter AudioAll None) [].
Proof.
  split.
  - apply (proj1 (main_order (L := Scenario.site)
      (Args.mk AudioAll None true default_title "http://iq2/sitemap.xml") 0 [])).
    reflexivity.
  - apply (proj2 (proj2 (main_order (L := Scenario.site)
      (Args.mk AudioAll None false default_title "http://iq2/sitemap.xml") 0 [])));
      reflexivity.
Defined.

(** ** The age cutoff *)

Lemma gen_for_keep {A : Type} (drop : A -> bool) (l : list A) :
  gen_for l (fun x => if drop x then gen_stop else gen_yield x)
  = (filter (fun x => negb (drop x)) l, None).
Proof.
  induction l as [|x l IH]; simpl; [reflexivity|].
  rewrite IH. now destruct (drop x).
Qed.

Lemma gen_for_gen_keep {A : Type} (drop : A -> bool) (g : gen A) :
  gen_for_gen g (fun x => if drop x then gen_stop else gen_yield x)
  = (filter (fun x => negb (drop x)) (yielded g), raised g).
Proof.
  unfold gen_for_gen. rewrite gen_for_keep. unfold yielded, raised.
  destruct (snd g); simpl; now rewrite app_nil_r.
Qed.

Lemma older_than_spec (cutoff : datetime) (p : Podcast.t) :
  older_than cutoff p = true <-> strictly_older (instant cutoff) p.
Proof.
  unfold older_than, strictly_older, datetime_lt.
  destruct (Podcast.pubDate p) as [d|]; split.
  - intros H. exists d. split; [reflexivity | now apply Z.ltb_lt].
  - intros (d' & Hd & Hlt). injection Hd as <-. now apply Z.ltb_lt.
  - discriminate.
  - intros (d' & Hd & _). discriminate.
Qed.

Lemma not_older_than_spec (cutoff : datetime) (p : Podcast.t) :
  negb (older_than cutoff p) = true <-> ~ strictly_older (instant cutoff) p.
Proof.
  rewrite <- older_than_spec. destruct (older_than cutoff p); simpl; split;
    congruence.
Qed.




(** C9: [--since 0] leaves [since] unset, as when the option is not
    given: the debate filter is then [all_debates], the candidates of the
    edited and unedited modes are all the podcasts of the page, the filter
    of the all mode is [all_podcasts], and the whole run is the run
    without the option.  Nothing is dropped for being older than [now]. *)
Theorem since_zero_is_no_cutoff :
  (forall now, main_since now (Some 0) = inr None)
  /\ (forall now, main_since now (Some 0) = main_since now None)
  /\ (forall debates, main_debate_filter None debates = debates)
  /\ (forall podcasts, podcast_list_of None podcasts = podcasts)
  /\ (forall debate podcasts,
        main_podcast_filter AudioAll None debate podcasts = podcasts)
  /\ (forall (L : Library) (args : Args.t) (now : Z) (w : World),
        Args.since args = Some 0 ->
        main_podcast_tuples args now w
        = main_podcast_tuples (without_since args) now w).
Proof.
  repeat split.
  - intros podcasts. unfold podcast_list_of. simpl.
    induction podcasts as [|p l IH]; simpl; [reflexivity | now rewrite IH].
  - intros L args now w H. unfold main_podcast_tuples, without_since. simpl.
    now rewrite H.
Qed.

(** On the small site with [--since 0], a podcast published before [now]
    is among the candidates, and the run is the run without the option. *)
Lemma since_zero_is_no_cutoff_witness :
  main_podcast_tuples (L := Scenario.site)
    (Args.mk AudioUnedited (Some 0) true default_title "http://iq2/sitemap.xml")
    1612137600000000 []
  = main_podcast_tuples (L := Scenario.site)
      (Args.mk AudioUnedited None true default_title "http://iq2/sitemap.xml")
      1612137600000000 [].
Proof.
  apply (proj2 (proj2 (proj2 (proj2 (proj2 since_zero_is_no_cutoff))))
           Scenario.site
           (Args.mk AudioUnedited (Some 0) true default_title
              "http://iq2/sitemap.xml")).
  reflexivity.
Defined.

(** ** The sitemap extractor *)

Section Sitemap.

Context {L : Library}.

Lemma slice_is_prefix (p s : string) :
  (slice_to (String.length p) s =? p)%string = prefix p s.
Proof.
  unfold slice_to.
  destruct (prefix p s) eqn:E.
  - apply prefix_correct in E. rewrite E. apply String.eqb_refl.
  - apply String.eqb_neq. intros H. apply prefix_correct in H. congruence.
Qed.

(** C6: a [<url>] entry whose location has a path under [/debates/] and
    whose [<lastmod>] is absent, or is refused by the ISO-8601 parser,
    yields a Debate whose [last_modified] is the epoch in UTC, and the
    entries before and after it in the sitemap are processed as usual. *)
Theorem lastmod_fallback_is_epoch :
  forall (urltag loc : node) (scheme path : string),
    find (by_name "loc") urltag = Some loc ->
    urlparse (unicode_opt (string_of loc)) = inr (scheme, path) ->
    prefix "/debates/" path = true ->
    (find (by_name "lastmod") urltag = None
     \/ exists lastmod,
          find (by_name "lastmod") urltag = Some lastmod
          /\ parse_date (string_of lastmod) = inl ValueError) ->
    debate_of_urltag urltag
      = gen_yield (Debate.mk (unicode_opt (string_of loc)) epoch_utc)
    /\ forall soup before after,
         find_all (by_name "url") soup = before ++ urltag :: after ->
         find_debates_soup soup
         = gen_seq (gen_for before debate_of_urltag)
             (gen_seq (gen_yield (Debate.mk (unicode_opt (string_of loc)) epoch_utc))
                      (gen_for after debate_of_urltag)).
Proof.
  intros urltag loc scheme path Hloc Hurl Hpath Hlastmod.
  assert (Hone : debate_of_urltag urltag
                 = gen_yield (Debate.mk (unicode_opt (string_of loc)) epoch_utc)).
  { unfold debate_of_urltag. rewrite Hloc. simpl. rewrite Hurl.
    rewrite (slice_is_prefix debate_path). unfold debate_path. rewrite Hpath.
    simpl. destruct Hlastmod as [-> | (lastmod & -> & ->)]; reflexivity. }
  split; [exact Hone|].
  intros soup before after Hall. unfold find_debates_soup.
  rewrite Hall, gen_for_app. simpl. now rewrite Hone.
Qed.

End Sitemap.

(** On the small site, the entry of debate b has a [<lastmod>] that is no
    date: its Debate is dated at the epoch, between those of its
    neighbours. *)
Lemma lastmod_fallback_is_epoch_witness :
  debate_of_urltag (L := Scenario.site) Scenario.url_b = gen_yield Scenario.debate_b
  /\ find_debates_soup (L := Scenario.site) Scenario.sitemap
     = gen_seq (gen_for [Scenario.url_a] (debate_of_urltag (L := Scenario.site)))
         (gen_seq (gen_yield Scenario.debate_b)
            (gen_for [Scenario.url_other; Scenario.url_c]
               (debate_of_urltag (L := Scenario.site)))).
Proof.
  assert (H := lastmod_fallback_is_epoch (L := Scenario.site) Scenario.url_b
                 (Scenario.element "loc" "http://iq2/debates/b")
                 "http" "/debates/b" eq_refl eq_refl eq_refl
                 (or_intror (ex_intro _ (Scenario.element "lastmod" "yesterday")
                                      (conj eq_refl eq_refl)))).
  split.
  - exact (proj1 H).
  - exact (proj2 H Scenario.sitemap [Scenario.url_a]
             [Scenario.url_other; Scenario.url_c] eq_refl).
Defined.

(** ** The renderer *)

Lemma string_app_assoc (a b c : string) :
  ((a ++ b) ++ c)%string = (a ++ (b ++ c))%string.
Proof. induction a as [|x a IH]; simpl; [reflexivity | now rewrite IH]. Qed.


Lemma replace_app (c : ascii) (r s1 s2 : string) :
  replace c r (s1 ++ s2)%string = (replace c r s1 ++ replace c r s2)%string.
Proof.
  induction s1 as [|a s1 IH]; simpl; [reflexivity|].
  rewrite IH. destruct (Ascii.eqb a c); simpl; [|reflexivity].
  now rewrite string_app_assoc.
Qed.

Lemma cgi_escape_cons (a : ascii) (s : string) :
  cgi_escape (String a s) true
  = (cgi_escape (String a EmptyString) true ++ cgi_escape s true)%string.
Proof.
  unfold cgi_escape.
  change (String a s) with (String a EmptyString ++ s)%string.
  now rewrite !replace_app.
Qed.

(** What [cgi.escape] makes of one character. *)
Lemma cgi_escape_char (a : ascii) :
  cgi_escape (String a EmptyString) true
  = if Ascii.eqb a "&" then "&amp;"
    else if Ascii.eqb a "<" then "&lt;"
    else if Ascii.eqb a ">" then "&gt;"
    else if Ascii.eqb a (ascii_of_nat 34) then "&quot;"
    else String a EmptyString.
Proof.
  unfold cgi_escape. simpl.
  destruct (Ascii.eqb a "&") eqn:E1; [reflexivity|]. simpl.
  destruct (Ascii.eqb a "<") eqn:E2; [reflexivity|]. simpl.
  destruct (Ascii.eqb a ">") eqn:E3; [reflexivity|]. simpl.
  change (ascii_of_nat 34) with (Ascii false true false false false true false false).
  destruct (Ascii.eqb a (Ascii false true false false false true false false));
    reflexivity.
Qed.







(** C10: the home page link is the sitemap URL, less a final
    [sitemap.xml], and it is written as it is, with no escaping, in the
    [<link>] of the channel and in the [<link>] of the image; the
    [<link>] of an item is the URL of the debate, escaped. *)
Theorem home_link_is_not_escaped :
  forall (L : Library) (url title : string)
         (podcast_tuples : gen (Debate.t * Podcast.t))
         (get_content_length : bool) (now : Z) (w : World),
    nth_error (yielded (fst (write_rss url title podcast_tuples
                               get_content_length now w))) 5
      = Some ("  <link>" ++ base_url url ++ "</link>" ++ nl)%string
    /\ nth_error (yielded (fst (write_rss url title podcast_tuples
                                  get_content_length now w))) 10
       = Some ("    <link>" ++ base_url url ++ "</link>" ++ nl)%string
    /\ (endswith url "/sitemap.xml" = false -> base_url url = url)
    /\ (endswith url "/sitemap.xml" = true ->
        base_url url = substring 0 (String.length url - 11) url)
    /\ (forall ent content_length,
          nth_error (rss_item ent content_length) 2
          = Some ("    <link>" ++ cgi_escape (Debate.url (fst ent)) true
                  ++ "</link>" ++ nl)%string).
Proof.
  intros L url title podcast_tuples get_content_length now w.
  unfold write_rss.
  destruct (write_items get_content_length (yielded podcast_tuples) w)
    as [[xs o] w1].
  unfold base_url, slice_to_minus.
  repeat split.
  - now intros ->.
  - now intros ->.
Qed.

(** A sitemap URL with an ampersand goes into the channel as it is, and
    the same text as the URL of a debate is written escaped. *)
Lemma home_link_is_not_escaped_witness :
  nth_error (yielded (fst (write_rss (L := Scenario.site)
     "http://iq2/map?a&b" "t" gen_stop false 0 []))) 5
  = Some ("  <link>http://iq2/map?a&b</link>" ++ nl)%string
  /\ nth_error (rss_item (L := Scenario.site)
                  (Debate.mk "http://iq2/map?a&b" epoch_utc, Scenario.long_b)
                  "0") 2
     = Some ("    <link>http://iq2/map?a&amp;b</link>" ++ nl)%string.
Proof.
  split.
  - exact (proj1 (home_link_is_not_escaped Scenario.site
             "http://iq2/map?a&b" "t" gen_stop false 0 [])).
  - exact (proj2 (proj2 (proj2 (proj2 (home_link_is_not_escaped Scenario.site
             "http://iq2/map?a&b" "t" gen_stop false 0 []))))
             (Debate.mk "http://iq2/map?a&b" epoch_utc, Scenario.long_b) "0").
Defined.

(** * Further properties *)

(** ** The sitemap extractor, entry by entry *)

Lemma is_ValueError_eq (e : exn) : is_ValueError e = true -> e = ValueError.
Proof. now destruct e. Qed.

Section SitemapEntries.

Context {L : Library}.

Lemma debate_of_urltag_skip (urltag : node) :
  find (by_name "loc") urltag = None
  \/ (exists loc scheme path,
        find (by_name "loc") urltag = Some loc
        /\ urlparse (unicode_opt (string_of loc)) = inr (scheme, path)
        /\ prefix "/debates/" path = false) ->
  debate_of_urltag urltag = gen_stop.
Proof.
  unfold debate_of_urltag.
  intros [-> | (loc & scheme & path & -> & Hurl & Hpath)]; [reflexivity|].
  simpl. rewrite Hurl, (slice_is_prefix debate_path). unfold debate_path.
  now rewrite Hpath.
Qed.

(** Every Debate of the sitemap comes from a [<url>] entry with a [<loc>]:
    its URL is the text of the [<loc>], the path of that URL starts with
    [/debates/], and its [last_modified] is the date of the [<lastmod>]
    when the parser accepts it, the epoch when there is none or the
    parser refuses it. *)
Theorem find_debates_soup_sound :
  forall (soup : node) (d : Debate.t),
    In d (yielded (find_debates_soup soup)) ->
    exists urltag loc scheme path,
      In urltag (find_all (by_name "url") soup)
      /\ find (by_name "loc") urltag = Some loc
      /\ Debate.url d = unicode_opt (string_of loc)
      /\ urlparse (Debate.url d) = inr (scheme, path)
      /\ prefix "/debates/" path = true
      /\ match find (by_name "lastmod") urltag with
         | None => Debate.last_modified d = epoch_utc
         | Some lastmod =>
             parse_date (string_of lastmod) = inr (Debate.last_modified d)
             \/ (parse_date (string_of lastmod) = inl ValueError
                 /\ Debate.last_modified d = epoch_utc)
         end.
Proof.
  intros soup d H. unfold find_debates_soup in H.
  apply gen_for_yielded in H. destruct H as (urltag & Hin & H).
  exists urltag. unfold debate_of_urltag in H.
  destruct (find (by_name "loc") urltag) as [loc|]; [|contradiction].
  destruct (urlparse (unicode_opt (string_of loc))) as [e|[scheme path]] eqn:Hurl;
    [contradiction|].
  rewrite (slice_is_prefix debate_path) in H. unfold debate_path in H.
  destruct (prefix "/debates/" path) eqn:Hpath; [|contradiction].
  exists loc, scheme, path. simpl in H.
  destruct (find (by_name "lastmod") urltag) as [lastmod|].
  - destruct (parse_date (string_of lastmod)) as [e|date] eqn:Hdate.
    + destruct (is_ValueError e) eqn:He; [|contradiction].
      apply is_ValueError_eq in He. subst e.
      destruct H as [<-|[]]. simpl. rewrite Hurl. auto 10.
    + destruct H as [<-|[]]. simpl. rewrite Hurl. auto 10.
  - destruct H as [<-|[]]. simpl. rewrite Hurl. auto 10.
Qed.

(** A [<url>] entry with no [<loc>], or whose location has a path that
    does not start with [/debates/], produces nothing: the Debates of the
    sitemap are those of the sitemap without the entry. *)
Theorem find_debates_skips_other_entries :
  forall (soup : node) (before after : list node) (urltag : node),
    find_all (by_name "url") soup = before ++ urltag :: after ->
    find (by_name "loc") urltag = None
    \/ (exists loc scheme path,
          find (by_name "loc") urltag = Some loc
          /\ urlparse (unicode_opt (string_of loc)) = inr (scheme, path)
          /\ prefix "/debates/" path = false) ->
    find_debates_soup soup = gen_for (before ++ after) debate_of_urltag.
Proof.
  intros soup before after urltag Hall Hskip. unfold find_debates_soup.
  rewrite Hall, !gen_for_app. simpl.
  rewrite (debate_of_urltag_skip urltag Hskip).
  now rewrite gen_seq_stop_l.
Qed.

(** Only a ValueError of the date parser is caught: when it raises another
    exception on the [<lastmod>] of a debate entry, the Debates of the
    entries before it are yielded, then the exception, and the entries
    after it are not read. *)
Theorem find_debates_other_parse_error :
  forall (soup : node) (before after : list node) (urltag loc lastmod : node)
         (scheme path : string) (e : exn),
    find_all (by_name "url") soup = before ++ urltag :: after ->
    find (by_name "loc") urltag = Some loc ->
    urlparse (unicode_opt (string_of loc)) = inr (scheme, path) ->
    prefix "/debates/" path = true ->
    find (by_name "lastmod") urltag = Some lastmod ->
    parse_date (string_of lastmod) = inl e ->
    is_ValueError e = false ->
    find_debates_soup soup
    = gen_seq (gen_for before debate_of_urltag) (gen_raise e).
Proof.
  intros soup before after urltag loc lastmod scheme path e
    Hall Hloc Hurl Hpath Hlastmod Hdate He.
  unfold find_debates_soup. rewrite Hall, gen_for_app. f_equal.
  simpl. unfold debate_of_urltag at 1. rewrite Hloc. simpl. rewrite Hurl.
  rewrite (slice_is_prefix debate_path). unfold debate_path. rewrite Hpath.
  simpl. now rewrite Hlastmod, Hdate, He.
Qed.

End SitemapEntries.

Lemma find_debates_soup_sound_witness :
  exists urltag loc scheme path,
    In urltag (find_all (by_name "url") Scenario.sitemap)
    /\ find (by_name "loc") urltag = Some loc
    /\ Debate.url Scenario.debate_b = unicode_opt (string_of loc)
    /\ urlparse (Library := Scenario.site) (Debate.url Scenario.debate_b)
       = inr (scheme, path)
    /\ prefix "/debates/" path = true
    /\ match find (by_name "lastmod") urltag with
       | None => Debate.last_modified Scenario.debate_b = epoch_utc
       | Some lastmod =>
           parse_date (Library := Scenario.site) (string_of lastmod)
           = inr (Debate.last_modified Scenario.debate_b)
           \/ (parse_date (Library := Scenario.site) (string_of lastmod)
               = inl ValueError
               /\ Debate.last_modified Scenario.debate_b = epoch_utc)
       end.
Proof.
  apply (find_debates_soup_sound (L := Scenario.site) Scenario.sitemap
           Scenario.debate_b).
  vm_compute. auto.
Defined.

Lemma find_debates_skips_other_entries_witness :
  find_debates_soup (L := Scenario.site) Scenario.sitemap
  = gen_for ([Scenario.url_a; Scenario.url_b] ++ [Scenario.url_c])
      (debate_of_urltag (L := Scenario.site)).
Proof.
  apply (find_debates_skips_other_entries (L := Scenario.site) Scenario.sitemap
           [Scenario.url_a; Scenario.url_b] [Scenario.url_c] Scenario.url_other).
  - reflexivity.
  - right. exists (Scenario.element "loc" "http://iq2/other/y"), "http", "/other/y".
    repeat split; reflexivity.
Defined.

Lemma find_debates_other_parse_error_witness :
  find_debates_soup (L := Cases.strict) Cases.sitemap_odd
  = gen_seq (gen_for [Scenario.url_a] (debate_of_urltag (L := Cases.strict)))
      (gen_raise TypeError).
Proof.
  apply (find_debates_other_parse_error (L := Cases.strict) Cases.sitemap_odd
           [Scenario.url_a] [Scenario.url_c] Cases.url_odd
           (Scenario.element "loc" "http://iq2/debates/odd")
           (Tag "lastmod" [] []) "http" "/debates/odd" TypeError);
    reflexivity.
Defined.

(** ** The debate page extractor, page by page *)

Section Pages.

Context {L : Library}.

(** The Podcasts of one page have the same description and the same
    publish date. *)
Theorem find_podcasts_soup_shared :
  forall (soup : node) (p q : Podcast.t),
    In p (yielded (find_podcasts_soup soup)) ->
    In q (yielded (find_podcasts_soup soup)) ->
    Podcast.desc p = Podcast.desc q
    /\ Podcast.pubDate p = Podcast.pubDate q.
Proof.
  intros soup p q. unfold find_podcasts_soup.
  destruct (page_desc soup) as [e|desc]; [contradiction|].
  destruct (page_pub_date soup) as [e|pub_date]; [contradiction|].
  intros Hp Hq.
  apply scan_podcasts_yielded in Hp, Hq.
  destruct Hp as (src & _ & Hp), Hq as (src' & _ & Hq).
  apply podcast_of_audio_inr in Hp, Hq.
  destruct Hp as (_ & _ & _ & _ & _ & _ & -> & ->).
  destruct Hq as (_ & _ & _ & _ & _ & _ & -> & ->).
  split; reflexivity.
Qed.

(** The published time of a page: when the parser refuses it with a
    ValueError the page is read as one with no publish date, and when the
    meta element has no [content] attribute the extraction raises KeyError
    before any Podcast. *)
Theorem find_podcasts_soup_published_time :
  forall (soup m : node) (desc : string),
    page_desc soup = inr desc ->
    find (by_name_attr "meta" "property" "article:published_time") soup = Some m ->
    (forall content,
        getitem m "content" = inr content ->
        parse_date (Some content) = inl ValueError ->
        find_podcasts_soup soup = scan_podcasts soup desc None)
    /\ (assoc "content" (tag_attrs m) = None ->
        find_podcasts_soup soup = gen_raise (KeyError "content")).
Proof.
  intros soup m desc Hdesc Hmeta. unfold find_podcasts_soup, page_pub_date.
  rewrite Hdesc, Hmeta. split.
  - intros content Hc Hd. unfold Py.bind. now rewrite Hc, Hd.
  - intros Hc. unfold getitem. now rewrite Hc.
Qed.

End Pages.

Lemma find_podcasts_soup_shared_witness :
  Podcast.desc Scenario.short_b = Podcast.desc Scenario.long_b
  /\ Podcast.pubDate Scenario.short_b = Podcast.pubDate Scenario.long_b.
Proof.
  apply (find_podcasts_soup_shared (L := Scenario.site) Scenario.page_b);
    vm_compute; auto.
Defined.

Lemma find_podcasts_soup_published_time_witness :
  find_podcasts_soup (L := Scenario.site) Cases.page_undated
  = scan_podcasts Cases.page_undated "A debate." None
  /\ find_podcasts_soup (L := Scenario.site) Cases.page_no_content
     = gen_raise (KeyError "content").
Proof.
  split.
  - apply (proj1 (find_podcasts_soup_published_time (L := Scenario.site)
                    Cases.page_undated (Cases.meta [("content", "soon")])
                    "A debate." eq_refl eq_refl) "soon"); reflexivity.
  - apply (proj2 (find_podcasts_soup_published_time (L := Scenario.site)
                    Cases.page_no_content (Cases.meta [])
                    "A debate." eq_refl eq_refl)); reflexivity.
Defined.

(** ** The orchestrator, pair by pair *)

Section Pairs.

Context {L : Library}.

Lemma debate_podcasts_loop_yielded (pf : podcast_filter_t)
    (ds : list Debate.t) (w : World) (d : Debate.t) (p : Podcast.t) :
  In (d, p) (yielded (fst (debate_podcasts_loop pf ds w))) ->
  In d ds
  /\ exists w', In p (yielded (pf d (fst (find_podcasts (Debate.url d) w')))).
Proof.
  revert w. induction ds as [|d0 ds IH]; intros w; simpl; [tauto|].
  destruct (find_podcasts (Debate.url d0) w) as [podcasts w1] eqn:Hfetch.
  destruct (pf d0 podcasts) as [ps ending] eqn:Hpf.
  assert (Hhere : In (d, p) (map (fun podcast => (d0, podcast)) ps) ->
                  In d (d0 :: ds)
                  /\ exists w', In p (yielded (pf d (fst (find_podcasts (Debate.url d) w'))))).
  { intros H. apply in_map_iff in H. destruct H as (q & Heq & Hq).
    injection Heq as <- <-. split; [now left|].
    exists w. rewrite Hfetch. simpl. now rewrite Hpf. }
  assert (Hrest : forall g w2,
            debate_podcasts_loop pf ds w1 = (g, w2) ->
            In (d, p) (yielded (gen_seq (map (fun podcast => (d0, podcast)) ps, None) g)) ->
            In d (d0 :: ds)
            /\ exists w', In p (yielded (pf d (fst (find_podcasts (Debate.url d) w'))))).
  { intros g w2 Hloop H. apply gen_seq_yielded in H. destruct H as [H|H].
    - now apply Hhere.
    - specialize (IH w1). rewrite Hloop in IH. destruct (IH H) as [Hd Hp].
      split; [now right | exact Hp]. }
  destruct ending as [e|].
  - destruct (is_RequestException e).
    + destruct (debate_podcasts_loop pf ds w1) as [g w2] eqn:Hloop.
      now apply Hrest with w2.
    + exact Hhere.
  - destruct (debate_podcasts_loop pf ds w1) as [g w2] eqn:Hloop.
    now apply Hrest with w2.
Qed.

Lemma find_debate_podcasts_yielded (url : string) (df : debate_filter_t)
    (pf : podcast_filter_t) (w : World) (d : Debate.t) (p : Podcast.t) :
  In (d, p) (yielded (fst (find_debate_podcasts url df pf w))) ->
  In d (yielded (df (fst (find_debates url w))))
  /\ exists w', In p (yielded (pf d (fst (find_podcasts (Debate.url d) w')))).
Proof.
  unfold find_debate_podcasts.
  destruct (find_debates url w) as [found w1].
  destruct (debate_podcasts_loop pf (yielded (df found)) w1) as [g w2] eqn:Hloop.
  simpl. intros H. apply gen_seq_yielded in H.
  destruct H as [H|H].
  - pose proof (debate_podcasts_loop_yielded pf (yielded (df found)) w1 d p) as Hl.
    rewrite Hloop in Hl. now apply Hl.
  - destruct (raised (df found)); simpl in H; contradiction.
Qed.

Lemma main_debate_filter_yielded (since : option datetime)
    (debates : gen Debate.t) (d : Debate.t) :
  In d (yielded (main_debate_filter since debates)) ->
  In d (yielded debates)
  /\ match since with
     | Some s => instant s <= instant (Debate.last_modified d)
     | None => True
     end.
Proof.
  destruct since as [s|]; simpl; [|tauto].
  unfold since_debate_filter. rewrite gen_for_gen_keep. unfold yielded at 1.
  simpl. rewrite filter_In. intros [Hin Hkeep]. split; [exact Hin|].
  unfold datetime_lt in Hkeep.
  destruct (Z.ltb_spec (instant (Debate.last_modified d)) (instant s));
    [discriminate | assumption].
Qed.

Lemma main_podcast_filter_yielded (audio : audio_mode) (since : option datetime)
    (debate : Debate.t) (podcasts : gen Podcast.t) (p : Podcast.t) :
  In p (yielded (main_podcast_filter audio since debate podcasts)) ->
  In p (yielded podcasts) /\ too_old since p = false.
Proof.
  assert (Hlist : forall q, In q (podcast_list_of since (yielded podcasts)) ->
                            In q (yielded podcasts) /\ too_old since q = false).
  { intros q Hq. unfold podcast_list_of in Hq. apply filter_In in Hq.
    destruct Hq as [Hin Hk]. split; [exact Hin|].
    now destruct (too_old since q). }
  destruct audio; simpl.
  - destruct since as [s|]; simpl.
    + unfold since_podcast_filter. rewrite gen_for_gen_keep.
      unfold yielded at 1. simpl. rewrite filter_In. intros [Hin Hk].
      split; [exact Hin|]. now destruct (older_than s p).
    + unfold all_podcasts. tauto.
  - unfold edited_podcast_filter. destruct (raised podcasts); [contradiction|].
    destruct (podcast_list_of since (yielded podcasts)) as [|x l] eqn:Hc;
      [contradiction|].
    intros [<-|[]]. apply Hlist. apply min_by_spec.
  - unfold unedited_podcast_filter. destruct (raised podcasts); [contradiction|].
    destruct (podcast_list_of since (yielded podcasts)) as [|x l] eqn:Hc;
      [contradiction|].
    intros [<-|[]]. apply Hlist. apply max_by_spec.
Qed.

(** A page that fails with an exception that is no RequestException ends
    the orchestrator: it yields the pairs of the debates before, the pairs
    the filter yielded for this page, then the exception; the debates
    after it are not fetched. *)
Theorem find_debate_podcasts_other_error :
  forall (url : string) (df : debate_filter_t) (pf : podcast_filter_t)
         (w w0 w1 w2 : World) (debates podcasts : _)
         (before rest : list Debate.t) (debate : Debate.t)
         (found : list (Debate.t * Podcast.t)) (ps : list Podcast.t) (e : exn),
    find_debates url w = (debates, w0) ->
    yielded (df debates) = before ++ debate :: rest ->
    debate_podcasts_loop pf before w0 = ((found, None), w1) ->
    find_podcasts (Debate.url debate) w1 = (podcasts, w2) ->
    pf debate podcasts = (ps, Some e) ->
    is_RequestException e = false ->
    find_debate_podcasts url df pf w
    = ((found ++ map (fun podcast => (debate, podcast)) ps, Some e), w2).
Proof.
  intros url df pf w w0 w1 w2 debates podcasts before rest debate found ps e
    Hsitemap Hdebates Hbefore Hfetch Hpf He.
  unfold find_debate_podcasts. rewrite Hsitemap, Hdebates.
  rewrite (debate_podcasts_loop_app _ _ _ _ _ _ Hbefore).
  simpl. now rewrite Hfetch, Hpf, He.
Qed.

(** Every pair of the run couples a Debate of the sitemap with a Podcast
    extracted from the page of that Debate. *)
Theorem find_debate_podcasts_provenance :
  forall (audio : audio_mode) (since : option datetime) (url : string)
         (w : World) (d : Debate.t) (p : Podcast.t),
    In (d, p) (yielded (fst (find_debate_podcasts url (main_debate_filter since)
                               (main_podcast_filter audio since) w))) ->
    In d (yielded (fst (find_debates url w)))
    /\ exists w', In p (yielded (fst (find_podcasts (Debate.url d) w'))).
Proof.
  intros audio since url w d p H.
  apply find_debate_podcasts_yielded in H. destruct H as [Hd (w' & Hp)].
  apply main_debate_filter_yielded in Hd.
  apply main_podcast_filter_yielded in Hp.
  split; [tauto|]. exists w'. tauto.
Qed.

(** With a cutoff, in every mode, no pair of the run is older than the
    cutoff: the Debate was not modified before it, and the Podcast has no
    publish date before it. *)
Theorem find_debate_podcasts_not_older :
  forall (audio : audio_mode) (since : datetime) (url : string)
         (w : World) (d : Debate.t) (p : Podcast.t),
    In (d, p) (yielded (fst (find_debate_podcasts url
                               (main_debate_filter (Some since))
                               (main_podcast_filter audio (Some since)) w))) ->
    instant since <= instant (Debate.last_modified d)
    /\ ~ strictly_older (instant since) p.
Proof.
  intros audio since url w d p H.
  apply find_debate_podcasts_yielded in H. destruct H as [Hd (w' & Hp)].
  apply main_debate_filter_yielded in Hd.
  apply main_podcast_filter_yielded in Hp.
  split; [tauto|]. apply not_older_than_spec.
  destruct Hp as [_ Hp]. simpl in Hp. now rewrite Hp.
Qed.

(** When every Debate of the sitemap was last modified before the
    cutoff, the run yields nothing and fetches no page: the world is as the
    fetch of the sitemap left it. *)
Theorem find_debate_podcasts_all_stale :
  forall (since : datetime) (pf : podcast_filter_t) (url : string)
         (w w1 : World) (debates : list Debate.t),
    find_debates url w = ((debates, None), w1) ->
    (forall d, In d debates ->
               instant (Debate.last_modified d) < instant since) ->
    find_debate_podcasts url (main_debate_filter (Some since)) pf w
    = (gen_stop, w1).
Proof.
  intros since pf url w w1 debates Hsitemap Hstale.
  assert (Hnone : filter (fun d => negb (datetime_lt (Debate.last_modified d) since))
                         debates = []).
  { clear Hsitemap. induction debates as [|d ds IH]; [reflexivity|]. simpl.
    unfold datetime_lt at 1.
    destruct (Z.ltb_spec (instant (Debate.last_modified d)) (instant since))
      as [_|Hge].
    - apply IH. intros d' Hd'. apply Hstale. now right.
    - specialize (Hstale d (or_introl eq_refl)). lia. }
  unfold find_debate_podcasts. rewrite Hsitemap. simpl.
  unfold since_debate_filter. rewrite gen_for_gen_keep. simpl.
  now rewrite Hnone.
Qed.

End Pairs.

(** On the site where the page of debate a has no description block, the
    run ends at that page with an AttributeError, and the pages of debates
    b and c are not fetched. *)
Lemma find_debate_podcasts_other_error_witness :
  find_debate_podcasts (L := Cases.site) "http://iq2/sitemap.xml"
    all_debates all_podcasts []
  = (([] ++ map (fun podcast => (Scenario.debate_a, podcast)) [],
      Some AttributeError),
     ["http://iq2/sitemap.xml"; "http://iq2/debates/a"]).
Proof.
  apply (find_debate_podcasts_other_error (L := Cases.site)
           "http://iq2/sitemap.xml" all_debates all_podcasts
           [] ["http://iq2/sitemap.xml"] ["http://iq2/sitemap.xml"]
           ["http://iq2/sitemap.xml"; "http://iq2/debates/a"]
           ([Scenario.debate_a; Scenario.debate_b; Scenario.debate_c], None)
           ([], Some AttributeError)
           [] [Scenario.debate_b; Scenario.debate_c] Scenario.debate_a
           [] [] AttributeError); reflexivity.
Defined.

Lemma find_debate_podcasts_provenance_witness :
  In Scenario.debate_b
     (yielded (fst (find_debates (L := Scenario.site) "http://iq2/sitemap.xml" [])))
  /\ exists w', In Scenario.long_b
       (yielded (fst (find_podcasts (L := Scenario.site)
                        (Debate.url Scenario.debate_b) w'))).
Proof.
  apply (find_debate_podcasts_provenance (L := Scenario.site) AudioAll None
           "http://iq2/sitemap.xml" []).
  vm_compute. auto.
Defined.

Lemma find_debate_podcasts_not_older_witness :
  instant (mkdatetime (-1) 0) <= instant (Debate.last_modified Scenario.debate_b)
  /\ ~ strictly_older (instant (mkdatetime (-1) 0)) Scenario.long_b.
Proof.
  apply (find_debate_podcasts_not_older (L := Scenario.site) AudioAll
           (mkdatetime (-1) 0) "http://iq2/sitemap.xml" []).
  vm_compute. auto.
Defined.

(** With a cutoff after 2020-01-01, on the small site: only the sitemap is
    fetched. *)
Lemma find_debate_podcasts_all_stale_witness :
  find_debate_podcasts (L := Scenario.site) "http://iq2/sitemap.xml"
    (main_debate_filter (Some (mkdatetime 1577836800000001 0))) all_podcasts []
  = (gen_stop, ["http://iq2/sitemap.xml"]).
Proof.
  apply (find_debate_podcasts_all_stale (L := Scenario.site)
           (mkdatetime 1577836800000001 0) all_podcasts
           "http://iq2/sitemap.xml" [] ["http://iq2/sitemap.xml"]
           [Scenario.debate_a; Scenario.debate_b; Scenario.debate_c]).
  - reflexivity.
  - intros d [<-|[<-|[<-|[]]]]; vm_compute; reflexivity.
Defined.

(** ** The selection of the edited and unedited modes *)

Section FirstBest.

Variable A : Type.
Variable lt : A -> A -> bool.
Hypothesis lt_asym : forall a b, lt a b = true -> lt b a = false.
Hypothesis lt_le_trans :
  forall a b c, lt a b = true -> lt c b = false -> lt a c = true.
Hypothesis le_lt_trans :
  forall a b c, lt b a = false -> lt b c = true -> lt a c = true.

(** A running best that is replaced only by a strictly better element
    ends on the first of the best elements. *)
Lemma fold_first_best (l : list A) (x : A) :
  exists before after,
    x :: l
    = before ++ fold_left (fun best y => if lt best y then y else best) l x
             :: after
    /\ (forall c, In c before ->
          lt c (fold_left (fun best y => if lt best y then y else best) l x) = true)
    /\ (forall c, In c after ->
          lt (fold_left (fun best y => if lt best y then y else best) l x) c = false).
Proof.
  revert x. induction l as [|y l IH]; intros x; simpl.
  - exists [], []. repeat split; intros c [].
  - destruct (lt x y) eqn:Hxy.
    + destruct (IH y) as (before & after & Heq & Hb & Ha).
      remember (fold_left (fun best z => if lt best z then z else best) l y)
        as m eqn:Hm.
      exists (x :: before), after. split; [simpl; f_equal; exact Heq|].
      split; [|exact Ha].
      intros c [<-|Hc]; [|now apply Hb].
      destruct before as [|y' before]; simpl in Heq; injection Heq as Hy _.
      * now rewrite <- Hy.
      * subst y'. apply lt_le_trans with y; [exact Hxy|].
        apply lt_asym, Hb. now left.
    + destruct (IH x) as (before & after & Heq & Hb & Ha).
      remember (fold_left (fun best z => if lt best z then z else best) l x)
        as m eqn:Hm.
      destruct before as [|x' before]; simpl in Heq; injection Heq as Hx Hl.
      * exists [], (y :: after). split; [simpl; congruence|].
        split; [intros c []|].
        intros c [<-|Hc]; [now rewrite <- Hx | now apply Ha].
      * subst x'. exists (x :: y :: before), after.
        split; [simpl; do 2 f_equal; exact Hl|]. split; [|exact Ha].
        intros c [<-|[<-|Hc]].
        -- apply Hb. now left.
        -- apply le_lt_trans with x; [exact Hxy|]. apply Hb. now left.
        -- apply Hb. now right.
Qed.

End FirstBest.

Lemma string_ltb_irrefl (a : string) : String.ltb a a = false.
Proof. unfold String.ltb. now rewrite string_compare_refl. Qed.

Lemma string_ltb_asym (a b : string) :
  String.ltb a b = true -> String.ltb b a = false.
Proof.
  unfold String.ltb. rewrite (String.compare_antisym b a).
  now destruct (String.compare a b).
Qed.

Lemma string_lt_le_trans (a b c : string) :
  String.ltb a b = true -> String.ltb c b = false -> String.ltb a c = true.
Proof.
  intros Hab Hcb. destruct (String.ltb a c) eqn:Hac; [reflexivity|].
  assert (a = b).
  { apply String.leb_antisym; [now apply string_ltb_leb|].
    apply string_leb_trans with c; now apply string_not_ltb_leb. }
  subst b. now rewrite string_ltb_irrefl in Hab.
Qed.

Lemma string_le_lt_trans (a b c : string) :
  String.ltb b a = false -> String.ltb b c = true -> String.ltb a c = true.
Proof.
  intros Hba Hbc. destruct (String.ltb a c) eqn:Hac; [reflexivity|].
  assert (b = c).
  { apply String.leb_antisym; [now apply string_ltb_leb|].
    apply string_leb_trans with a; now apply string_not_ltb_leb. }
  subst c. now rewrite string_ltb_irrefl in Hbc.
Qed.

(** Ties in the unedited mode: the Podcast yielded is the first of the
    candidates whose duration is greatest in the order of strings; every
    candidate before it has a strictly smaller duration, none after it has
    a greater one. *)
Theorem unedited_first_of_greatest :
  forall (since : option datetime) (debate : Debate.t)
         (podcasts : list Podcast.t) (p : Podcast.t),
    unedited_podcast_filter since debate (podcasts, None) = gen_yield p ->
    exists before after,
      podcast_list_of since podcasts = before ++ p :: after
      /\ (forall c, In c before ->
            String.ltb (Podcast.duration c) (Podcast.duration p) = true)
      /\ (forall c, In c after ->
            String.ltb (Podcast.duration p) (Podcast.duration c) = false).
Proof.
  intros since debate podcasts p. unfold unedited_podcast_filter. simpl.
  destruct (podcast_list_of since podcasts) as [|x l]; [discriminate|].
  intros H. injection H as <-. unfold max_by.
  apply (fold_first_best Podcast.t
           (fun a b => String.ltb (Podcast.duration a) (Podcast.duration b))).
  - intros a b. apply string_ltb_asym.
  - intros a b c. apply string_lt_le_trans.
  - intros a b c. apply string_le_lt_trans.
Qed.

(** Ties in the edited mode: the Podcast yielded is the first of the
    candidates whose duration is least in the order of strings. *)
Theorem edited_first_of_least :
  forall (since : option datetime) (debate : Debate.t)
         (podcasts : list Podcast.t) (p : Podcast.t),
    edited_podcast_filter since debate (podcasts, None) = gen_yield p ->
    exists before after,
      podcast_list_of since podcasts = before ++ p :: after
      /\ (forall c, In c before ->
            String.ltb (Podcast.duration p) (Podcast.duration c) = true)
      /\ (forall c, In c after ->
            String.ltb (Podcast.duration c) (Podcast.duration p) = false).
Proof.
  intros since debate podcasts p. unfold edited_podcast_filter. simpl.
  destruct (podcast_list_of since podcasts) as [|x l]; [discriminate|].
  intros H. injection H as <-. unfold min_by.
  apply (fold_first_best Podcast.t
           (fun a b => String.ltb (Podcast.duration b) (Podcast.duration a))).
  - intros a b. apply string_ltb_asym.
  - intros a b c Hab Hcb.
    now apply string_le_lt_trans with (Podcast.duration b).
  - intros a b c Hba Hbc.
    now apply string_lt_le_trans with (Podcast.duration b).
Qed.

(** Two recordings of 60 seconds: both modes yield the first. *)
Lemma unedited_first_of_greatest_witness :
  exists before after,
    podcast_list_of None
      [Cases.motion;
       Podcast.mk "Motion again" "A debate." None "http://cdn/n.mp3"
                  "audio/mpeg" "60"]
    = before ++ Cases.motion :: after
    /\ (forall c, In c before ->
          String.ltb (Podcast.duration c) (Podcast.duration Cases.motion) = true)
    /\ (forall c, In c after ->
          String.ltb (Podcast.duration Cases.motion) (Podcast.duration c) = false).
Proof.
  apply (unedited_first_of_greatest None Scenario.debate_b). reflexivity.
Defined.

Lemma edited_first_of_least_witness :
  exists before after,
    podcast_list_of None
      [Cases.motion;
       Podcast.mk "Motion again" "A debate." None "http://cdn/n.mp3"
                  "audio/mpeg" "60"]
    = before ++ Cases.motion :: after
    /\ (forall c, In c before ->
          String.ltb (Podcast.duration Cases.motion) (Podcast.duration c) = true)
    /\ (forall c, In c after ->
          String.ltb (Podcast.duration c) (Podcast.duration Cases.motion) = false).
Proof.
  apply (edited_first_of_least None Scenario.debate_b). reflexivity.
Defined.

(** Both selections yield one of the candidates, that is one of the
    Podcasts of the page that the age rule keeps, or nothing when there is
    no candidate; and when the page ends with an exception they yield
    nothing and raise it. *)
Theorem selection_among_candidates :
  forall (since : option datetime) (debate : Debate.t) (podcasts : list Podcast.t),
    (podcast_list_of since podcasts = []
     /\ unedited_podcast_filter since debate (podcasts, None) = gen_stop
     /\ edited_podcast_filter since debate (podcasts, None) = gen_stop)
    \/ (exists p q,
          unedited_podcast_filter since debate (podcasts, None) = gen_yield p
          /\ edited_podcast_filter since debate (podcasts, None) = gen_yield q
          /\ In p podcasts /\ too_old since p = false
          /\ In q podcasts /\ too_old since q = false).
Proof.
  intros since debate podcasts.
  unfold unedited_podcast_filter, edited_podcast_filter. simpl.
  assert (Hlist : forall c, In c (podcast_list_of since podcasts) ->
                            In c podcasts /\ too_old since c = false).
  { intros c Hc. unfold podcast_list_of in Hc. apply filter_In in Hc.
    destruct Hc as [Hin Hk]. split; [exact Hin|]. now destruct (too_old since c). }
  destruct (podcast_list_of since podcasts) as [|x l]; [now left|].
  right. exists (max_by Podcast.duration x l), (min_by Podcast.duration x l).
  destruct (Hlist _ (proj1 (max_by_spec Podcast.duration l x))).
  destruct (Hlist _ (proj1 (min_by_spec Podcast.duration l x))).
  repeat split; assumption.
Qed.

(** ** Sorting *)

Lemma insert_desc_same_key {A : Type} (key : A -> Z) (k : Z) (x : A) (l : list A) :
  filter (fun y => key y =? k) (insert_desc key x l)
  = filter (fun y => key y =? k) (x :: l).
Proof.
  induction l as [|y l IH]; [reflexivity|]. simpl insert_desc.
  destruct (Z.ltb_spec (key x) (key y)) as [Hlt|Hge]; [|reflexivity].
  simpl. simpl in IH. rewrite IH.
  destruct (Z.eqb_spec (key x) k), (Z.eqb_spec (key y) k);
    try reflexivity; lia.
Qed.

(** The sort is stable: the pairs that have one and the same effective
    timestamp are, after the sort, in the order the orchestrator gave
    them. *)
Theorem sorted_tuples_stable :
  forall (podcast_tuples : list (Debate.t * Podcast.t)) (t : Z),
    filter (fun ent => instant (effective_date ent) =? t)
           (yielded (sorted_tuples (podcast_tuples, None)))
    = filter (fun ent => instant (effective_date ent) =? t) podcast_tuples.
Proof.
  intros l t. unfold sorted_tuples. simpl. unfold yielded. simpl.
  induction l as [|x l IH]; [reflexivity|]. simpl sorted_reverse.
  rewrite (insert_desc_same_key (fun ent => instant (effective_date ent))).
  simpl. now rewrite IH.
Qed.

(** ** An age that is no date *)

(** When [--since] is more than 999999999 days either way, or leads
    before year 1 or after year 9999, the cutoff cannot be computed: the
    run raises OverflowError before it fetches anything. *)
Theorem main_since_overflow :
  forall (L : Library) (args : Args.t) (now : Z) (w : World) (days : Z),
    Args.since args = Some days ->
    999999999 < Z.abs days
    \/ (days <> 0
        /\ (now - days * usec_per_day < datetime_min_usec
            \/ datetime_max_usec < now - days * usec_per_day)) ->
    main_since now (Args.since args) = inl OverflowError
    /\ main_podcast_tuples args now w = (gen_raise OverflowError, w).
Proof.
  intros L args now w days Hs Hbad.
  assert (H : main_since now (Args.since args) = inl OverflowError).
  { rewrite Hs. unfold main_since, truthy_int, timedelta, datetime_sub.
    destruct (Z.eqb_spec days 0) as [->|Hd]; simpl.
    - destruct Hbad as [Hbad|[Hbad _]]; [simpl in Hbad; lia | congruence].
    - destruct (Z.leb_spec (Z.abs days) 999999999) as [Hle|Hgt]; simpl;
        [|reflexivity].
      destruct Hbad as [Hbad|[_ Hbad]]; [lia|].
      destruct (Z.leb_spec datetime_min_usec (now - days * usec_per_day));
        destruct (Z.leb_spec (now - days * usec_per_day) datetime_max_usec);
        simpl; try reflexivity; lia. }
  split; [exact H|]. unfold main_podcast_tuples. now rewrite H.
Qed.

Lemma main_since_overflow_witness :
  main_since 0 (Some 1000000000) = inl OverflowError
  /\ main_podcast_tuples (L := Scenario.site)
       (Args.mk AudioAll (Some 1000000000) true default_title
                "http://iq2/sitemap.xml") 0 []
     = (gen_raise OverflowError, []).
Proof.
  apply (main_since_overflow Scenario.site
           (Args.mk AudioAll (Some 1000000000) true default_title
                    "http://iq2/sitemap.xml") 0 [] 1000000000).
  - reflexivity.
  - left. reflexivity.
Defined.

(** ** The renderer: the home page, escaping and the shape of the feed *)

Lemma string_length_app (a b : string) :
  String.length (a ++ b) = (String.length a + String.length b)%nat.
Proof. induction a as [|x a IH]; simpl; [reflexivity | now rewrite IH]. Qed.

Lemma substring_after (a b : string) (n : nat) :
  substring (String.length a) n (a ++ b) = substring 0 n b.
Proof. induction a as [|x a IH]; simpl; [reflexivity | exact IH]. Qed.

Lemma substring_through (a b : string) (k : nat) :
  substring 0 (String.length a + k) (a ++ b) = (a ++ substring 0 k b)%string.
Proof. induction a as [|x a IH]; simpl; [reflexivity | now rewrite IH]. Qed.

(** The home page of a sitemap URL that ends with [/sitemap.xml] is the
    URL less [sitemap.xml]: it keeps the final slash. *)
Theorem base_url_of_sitemap :
  forall (s : string),
    endswith (s ++ "/sitemap.xml") "/sitemap.xml" = true
    /\ base_url (s ++ "/sitemap.xml") = (s ++ "/")%string.
Proof.
  intros s.
  assert (He : endswith (s ++ "/sitemap.xml") "/sitemap.xml" = true).
  { unfold endswith. rewrite string_length_app.
    replace (String.length s + String.length "/sitemap.xml"
             - String.length "/sitemap.xml")%nat
      with (String.length s) by lia.
    rewrite substring_after. apply andb_true_iff.
    split; [reflexivity | apply Nat.leb_le; lia]. }
  split; [exact He|].
  unfold base_url. rewrite He. unfold slice_to_minus.
  rewrite string_length_app.
  replace (String.length s + String.length "/sitemap.xml"
           - String.length "sitemap.xml")%nat
    with (String.length s + 1)%nat by (simpl; lia).
  now rewrite substring_through.
Qed.

Lemma markup_free_app (a b : string) :
  markup_free (a ++ b) = markup_free a && markup_free b.
Proof.
  induction a as [|x a IH]; simpl; [reflexivity|].
  now rewrite IH, andb_assoc.
Qed.

(** An escaped text holds no angle bracket and no double quote, whatever
    the text was. *)
Theorem cgi_escape_markup_free :
  forall (s : string), markup_free (cgi_escape s true) = true.
Proof.
  induction s as [|a s IH]; [reflexivity|].
  rewrite cgi_escape_cons, markup_free_app, IH, andb_true_r.
  rewrite cgi_escape_char.
  destruct (Ascii.eqb a "&") eqn:E1; [reflexivity|].
  destruct (Ascii.eqb a "<") eqn:E2; [reflexivity|].
  destruct (Ascii.eqb a ">") eqn:E3; [reflexivity|].
  destruct (Ascii.eqb a (ascii_of_nat 34)) eqn:E4; [reflexivity|].
  simpl. change (Ascii false true false false false true false false)
    with (ascii_of_nat 34).
  now rewrite E2, E3, E4.
Qed.

(** Escaping goes through concatenation: the escape of two texts put
    together is their escapes put together, with or without the quotes. *)
Theorem cgi_escape_app :
  forall (a b : string) (quote : bool),
    cgi_escape (a ++ b) quote = (cgi_escape a quote ++ cgi_escape b quote)%string.
Proof.
  intros a b quote. unfold cgi_escape. rewrite !replace_app.
  now destruct quote.
Qed.

Section Feed.

Context {L : Library}.

Lemma write_item_formatted (ent : Debate.t * Podcast.t) (len pub_date : string) :
  item_pub_date ent = inr pub_date ->
  write_item ent len = (rss_item ent len, None).
Proof. unfold write_item, rss_item. now intros ->. Qed.


Lemma rss_item_length (ent : Debate.t * Podcast.t) (len : string) :
  List.length (rss_item ent len) = 8%nat.
Proof. reflexivity. Qed.

Lemma flat_map_rss_item_length (f : Debate.t * Podcast.t -> string)
    (ents : list (Debate.t * Podcast.t)) :
  List.length (flat_map (fun ent => rss_item ent (f ent)) ents)
  = (8 * List.length ents)%nat.
Proof.
  induction ents as [|ent ents IH]; [reflexivity|].
  cbn [flat_map]. rewrite length_app, IH, rss_item_length.
  cbn [List.length]. lia.
Qed.

Lemma write_items_without_lookups (ents : list (Debate.t * Podcast.t)) (w : World) :
  (forall ent, In ent ents -> exists pub_date, item_pub_date ent = inr pub_date) ->
  write_items false ents w
  = ((flat_map (fun ent => rss_item ent "0") ents, None), w).
Proof.
  induction ents as [|ent ents IH]; intros Hdates; [reflexivity|].
  destruct (Hdates ent (or_introl eq_refl)) as [pub_date Hd].
  cbn [write_items item_content_length].
  rewrite (write_item_formatted _ _ _ Hd). cbn [raised snd].
  rewrite IH; [reflexivity|]. intros x Hx. apply Hdates. now right.
Qed.

(** Without the lookup of content lengths, and when the date of every pair
    can be written (it is a date of the years 1 to 9999 in UTC, that
    [strftime] formats), the feed is the 17 writes of the channel, 8
    writes for each pair with a length of 0, and the two closing writes;
    no request is made.  When the pairs end with an exception, the closing
    writes are missing and the exception comes out after the items already
    written. *)
Theorem write_rss_without_lookups :
  forall (url title : string) (pairs : list (Debate.t * Podcast.t))
         (ending : option exn) (now : Z) (w : World),
    (forall ent, In ent pairs ->
                 exists pub_date, item_pub_date ent = inr pub_date) ->
    write_rss url title (pairs, ending) false now w
    = ((rss_header url title (strftime_rfc822 (mkdatetime now 0))
        ++ flat_map (fun ent => rss_item ent "0") pairs
        ++ match ending with None => rss_footer | Some _ => [] end,
        ending), w)
    /\ List.length (yielded (fst (write_rss url title (pairs, None) false now w)))
       = (17 + 8 * List.length pairs + 2)%nat.
Proof.
  intros url title pairs ending now w Hdates.
  assert (Hshape : forall o,
    write_rss url title (pairs, o) false now w
    = ((rss_header url title (strftime_rfc822 (mkdatetime now 0))
        ++ flat_map (fun ent => rss_item ent "0") pairs
        ++ match o with None => rss_footer | Some _ => [] end, o), w)).
  { intros o. unfold write_rss. cbn [yielded raised fst snd].
    rewrite (write_items_without_lookups _ _ Hdates).
    destruct o; reflexivity. }
  split; [apply Hshape|].
  rewrite Hshape. unfold yielded. cbn [fst].
  rewrite !length_app, flat_map_rss_item_length.
  change (List.length (rss_header url title
                         (strftime_rfc822 (mkdatetime now 0)))) with 17%nat.
  change (List.length rss_footer) with 2%nat. lia.
Qed.


Lemma write_items_resilient (ents : list (Debate.t * Podcast.t)) (w : World) :
  (forall u w0, match fst (_get_content_length u w0) with
                | inl e => is_RequestException e = true
                | inr _ => True
                end) ->
  (forall ent, In ent ents -> exists pub_date, item_pub_date ent = inr pub_date) ->
  raised (fst (write_items true ents w)) = None
  /\ List.length (yielded (fst (write_items true ents w)))
     = (8 * List.length ents)%nat.
Proof.
  intros Hreq. revert w. induction ents as [|ent ents IH]; intros w Hdates.
  - split; reflexivity.
  - destruct (Hdates ent (or_introl eq_refl)) as [pub_date Hd].
    assert (Hrest : forall x, In x ents ->
                              exists pub_date, item_pub_date x = inr pub_date)
      by (intros x Hx; apply Hdates; now right).
    assert (Hgo : forall len w1,
      raised (fst (let '(g, w2) := write_items true ents w1 in
                   (gen_seq (rss_item ent len, @None exn) g, w2))) = None
      /\ List.length (yielded (fst (let '(g, w2) := write_items true ents w1 in
                   (gen_seq (rss_item ent len, @None exn) g, w2))))
         = (8 * List.length (ent :: ents))%nat).
    { intros len w1. destruct (IH w1 Hrest) as [Hr Hl].
      destruct (write_items true ents w1) as [[xs o] w2].
      unfold raised, yielded in *. cbn [fst snd] in *. subst o.
      unfold gen_seq. cbn [fst snd]. split; [reflexivity|].
      rewrite length_app, rss_item_length, Hl. cbn [List.length]. lia. }
    cbn [write_items]. unfold item_content_length.
    pose proof (Hreq (Podcast.url (snd ent)) w) as Hhere.
    destruct (_get_content_length (Podcast.url (snd ent)) w) as [[e|len] w1];
      cbn [fst] in Hhere.
    + rewrite Hhere, (write_item_formatted _ _ _ Hd). cbn [raised snd].
      apply Hgo.
    + rewrite (write_item_formatted _ _ _ Hd). cbn [raised snd]. apply Hgo.
Qed.

(** When every lookup of a content length either succeeds or raises a
    RequestException, and the date of every pair can be written, the
    render is never cut short: it raises nothing, and writes the channel,
    8 writes for each pair and the closing writes. *)
Theorem write_rss_resilient :
  forall (url title : string) (pairs : list (Debate.t * Podcast.t))
         (now : Z) (w : World),
    (forall u w0, match fst (_get_content_length u w0) with
                  | inl e => is_RequestException e = true
                  | inr _ => True
                  end) ->
    (forall ent, In ent pairs ->
                 exists pub_date, item_pub_date ent = inr pub_date) ->
    raised (fst (write_rss url title (pairs, None) true now w)) = None
    /\ List.length (yielded (fst (write_rss url title (pairs, None) true now w)))
       = (17 + 8 * List.length pairs + 2)%nat
    /\ exists body,
         yielded (fst (write_rss url title (pairs, None) true now w))
         = body ++ rss_footer.
Proof.
  intros url title pairs now w Hreq Hdates. unfold write_rss.
  change (yielded (pairs, @None exn)) with pairs.
  destruct (write_items_resilient pairs w Hreq Hdates) as [Hr Hl].
  destruct (write_items true pairs w) as [[xs o] w1].
  unfold raised, yielded in Hr, Hl. cbn [fst snd] in Hr, Hl.
  subst o. unfold raised, yielded, gen_seq. cbn [fst snd]. repeat split.
  - rewrite !length_app.
    change (List.length (rss_header url title
                           (strftime_rfc822 (mkdatetime now 0)))) with 17%nat.
    rewrite Hl. cbn [List.length]. lia.
  - exists (rss_header url title (strftime_rfc822 (mkdatetime now 0)) ++ xs).
    now rewrite <- app_assoc.
Qed.

End Feed.

(** The feed of the two pairs of the small site, with no lookup. *)
Lemma write_rss_without_lookups_witness :
  List.length
    (yielded (fst (write_rss (L := Scenario.site) "http://iq2/sitemap.xml" "t"
                     ([(Scenario.debate_b, Scenario.long_b);
                       (Scenario.debate_c, Scenario.only_c)], None) false 0 [])))
  = (17 + 8 * List.length [(Scenario.debate_b, Scenario.long_b);
                           (Scenario.debate_c, Scenario.only_c)] + 2)%nat.
Proof.
  assert (Hdates : forall ent,
            In ent [(Scenario.debate_b, Scenario.long_b);
                    (Scenario.debate_c, Scenario.only_c)] ->
            exists pub_date, item_pub_date (L := Scenario.site) ent = inr pub_date)
    by (intros ent [<-|[<-|[]]]; eexists; reflexivity).
  exact (proj2 (write_rss_without_lookups (L := Scenario.site)
                  "http://iq2/sitemap.xml" "t"
                  [(Scenario.debate_b, Scenario.long_b);
                   (Scenario.debate_c, Scenario.only_c)] None 0 [] Hdates)).
Defined.


(** On the site where no length can be had, the feed of one pair is
    complete, with its 27 writes. *)
Lemma write_rss_resilient_witness :
  raised (fst (write_rss (L := Cases.site) "http://iq2/sitemap.xml" "t"
                 ([(Scenario.debate_b, Scenario.long_b)], None) true 0 [])) = None
  /\ List.length (yielded (fst (write_rss (L := Cases.site)
                    "http://iq2/sitemap.xml" "t"
                    ([(Scenario.debate_b, Scenario.long_b)], None) true 0 [])))
     = (17 + 8 * List.length [(Scenario.debate_b, Scenario.long_b)] + 2)%nat
  /\ exists body,
       yielded (fst (write_rss (L := Cases.site) "http://iq2/sitemap.xml" "t"
                       ([(Scenario.debate_b, Scenario.long_b)], None) true 0 []))
       = body ++ rss_footer.
Proof.
  apply (write_rss_resilient (L := Cases.site)).
  - intros u w0. reflexivity.
  - intros ent [<-|[]]. eexists. reflexivity.
Defined.

(** ** The content length *)

Section ContentLength.

Context {Sess : Http.Session}.

Lemma follow_redirects_final (fuel : nat) (resp final : Http.response)
    (w w' : Http.Net) :
  Http.follow_redirects fuel resp w = Some (inr final, w') ->
  Http.redirects_to resp w final w' /\ Http.is_redirect final = false.
Proof.
  revert resp w. induction fuel as [|fuel IH]; intros resp w; simpl.
  - destruct (Http.is_redirect resp) eqn:Hr; [discriminate|].
    intros H. injection H as <- <-. split; [constructor | exact Hr].
  - destruct (Http.is_redirect resp) eqn:Hr.
    + destruct (Http.session_send (Http.next resp) w) as [[e|resp'] w1] eqn:Hs;
        [discriminate|].
      destruct (Http.raise_for_status resp') eqn:Hok'; [discriminate|].
      intros H. destruct (IH _ _ H) as [Hto Hfinal].
      split; [|exact Hfinal].
      now apply Http.redirects_on with resp' w1.
    + intros H. injection H as <- <-. split; [constructor | exact Hr].
Qed.

Lemma redirects_to_followed (resp final : Http.response) (w w' : Http.Net) :
  Http.redirects_to resp w final w' ->
  Http.is_redirect final = false ->
  exists fuel, Http.follow_redirects fuel resp w = Some (inr final, w').
Proof.
  induction 1 as [resp w | resp w resp' w1 final w' Hr Hs Hok Hto IH];
    intros Hfinal.
  - exists 0%nat. simpl. now rewrite Hfinal.
  - destruct (IH Hfinal) as [fuel Hf]. exists (S fuel). simpl.
    now rewrite Hr, Hs, Hok.
Qed.

Lemma follow_redirects_more_fuel (fuel k : nat) (resp : Http.response)
    (w : Http.Net) (r : result Http.response * Http.Net) :
  Http.follow_redirects fuel resp w = Some r ->
  Http.follow_redirects (fuel + k) resp w = Some r.
Proof.
  revert resp w. induction fuel as [|fuel IH]; intros resp w; simpl.
  - destruct (Http.is_redirect resp) eqn:Hr; [discriminate|].
    intros H. destruct k; simpl; now rewrite Hr.
  - destruct (Http.is_redirect resp); [|trivial].
    destruct (Http.session_send (Http.next resp) w) as [[e|resp'] w1];
      [trivial|].
    destruct (Http.raise_for_status resp'); [trivial|]. apply IH.
Qed.

(** [_get_content_length] returns a length, for some bound on the
    number of redirections, exactly when the HEAD request is answered by a
    response that passes [raise_for_status] and the redirections lead from
    it to a response that is no redirection; the length is then the value
    of the header of that last response named Content-Length in any case
    of letters, or 0 when it has no such header, and the network is in the
    state the last request left. *)
Theorem get_content_length_of_final_response :
  forall (url : string) (w w' : Http.Net) (len : string),
    (exists fuel, Http._get_content_length fuel url w = Some (inr len, w'))
    <-> (exists first w1 final,
           Http.session_head url w = (inr first, w1)
           /\ Http.raise_for_status first = None
           /\ Http.redirects_to first w1 final w'
           /\ Http.is_redirect final = false
           /\ len = Http.content_length_header (Http.headers final)).
Proof.
  intros url w w' len. unfold Http._get_content_length. split.
  - intros [fuel H].
    destruct (Http.session_head url w) as [[e|first] w1] eqn:Hh; [discriminate|].
    destruct (Http.raise_for_status first) eqn:Hok; [discriminate|].
    destruct (Http.follow_redirects fuel first w1) as [[[e|final] w2]|] eqn:Hf;
      try discriminate.
    injection H as <- <-. exists first, w1, final.
    destruct (follow_redirects_final _ _ _ _ _ Hf) as [Hto Hfinal]. auto.
  - intros (first & w1 & final & Hh & Hok & Hto & Hfinal & ->).
    destruct (redirects_to_followed _ _ _ _ Hto Hfinal) as [fuel Hf].
    exists fuel. now rewrite Hh, Hok, Hf.
Qed.

(** A result obtained within some number of redirections is the result
    for any greater number; and a first response that is no redirection
    gives the result with no redirection at all. *)
Theorem get_content_length_enough_fuel :
  forall (fuel : nat) (url : string) (w : Http.Net),
    (forall r k,
        Http._get_content_length fuel url w = Some r ->
        Http._get_content_length (fuel + k) url w = Some r)
    /\ (forall resp w',
          Http.session_head url w = (inr resp, w') ->
          Http.raise_for_status resp = None ->
          Http.is_redirect resp = false ->
          Http._get_content_length fuel url w
          = Some (inr (Http.content_length_header (Http.headers resp)), w')).
Proof.
  intros fuel url w. unfold Http._get_content_length. split.
  - intros r k.
    destruct (Http.session_head url w) as [[e|resp] w1]; [trivial|].
    destruct (Http.raise_for_status resp); [trivial|].
    destruct (Http.follow_redirects fuel resp w1) as [r'|] eqn:Hf;
      [|discriminate].
    now rewrite (follow_redirects_more_fuel _ k _ _ _ Hf).
  - intros resp w' -> -> Hr. destruct fuel; simpl; now rewrite Hr.
Qed.

(** An exception of the HEAD request, of [raise_for_status] on its
    response, or of the request that follows a redirection comes out of
    [_get_content_length], whatever the number of redirections allowed. *)
Theorem get_content_length_errors :
  forall (fuel : nat) (url : string) (w : Http.Net),
    (forall e w',
        Http.session_head url w = (inl e, w') ->
        Http._get_content_length fuel url w = Some (inl e, w'))
    /\ (forall resp e w',
          Http.session_head url w = (inr resp, w') ->
          Http.raise_for_status resp = Some e ->
          Http._get_content_length fuel url w = Some (inl e, w'))
    /\ (forall resp e w' w'',
          Http.session_head url w = (inr resp, w') ->
          Http.raise_for_status resp = None ->
          Http.is_redirect resp = true ->
          Http.session_send (Http.next resp) w' = (inl e, w'') ->
          Http._get_content_length (S fuel) url w = Some (inl e, w'')).
Proof.
  intros fuel url w. unfold Http._get_content_length. repeat split.
  - now intros e w' ->.
  - now intros resp e w' -> ->.
  - intros resp e w' w'' -> -> Hr Hs. simpl. now rewrite Hr, Hs.
Qed.

End ContentLength.

(** The header is found whatever the case of its name: the value of the
    first header whose name in lower case is [content-length] is
    returned, and 0 when there is none. *)
Theorem content_length_header_any_case :
  (forall before key value after,
      Http.lower key = "content-length" ->
      (forall k v, In (k, v) before -> Http.lower k <> "content-length") ->
      Http.content_length_header (before ++ (key, value) :: after) = value)
  /\ (forall hs,
        (forall k v, In (k, v) hs -> Http.lower k <> "content-length") ->
        Http.content_length_header hs = "0").
Proof.
  assert (Hskip : forall before rest,
    (forall k v, In (k, v) before -> Http.lower k <> "content-length") ->
    Http.content_length_header (before ++ rest) = Http.content_length_header rest).
  { induction before as [|[k v] before IH]; intros rest Hno; [reflexivity|].
    simpl. destruct (String.eqb_spec (Http.lower k) "content-length") as [He|_].
    - exfalso. apply (Hno k v); [now left | exact He].
    - apply IH. intros k' v' Hin. apply (Hno k' v'). now right. }
  split.
  - intros before key value after Hkey Hno. rewrite (Hskip _ _ Hno). simpl.
    now rewrite Hkey.
  - intros hs Hno. rewrite <- (app_nil_r hs). now rewrite (Hskip _ _ Hno).
Qed.

(** The server that redirects once: the length is that of the response
    at the new address, whose header is written [Content-LENGTH]. *)
Lemma get_content_length_of_final_response_witness :
  exists first w1 final,
    Http.session_head (Session := Cases.cdn) "http://cdn/m.mp3" []
    = (inr first, w1)
    /\ Http.raise_for_status first = None
    /\ Http.redirects_to (Sess := Cases.cdn) first w1 final
         ["http://cdn/m.mp3"; "http://cdn2/m.mp3"]
    /\ Http.is_redirect final = false
    /\ "4096" = Http.content_length_header (Http.headers final).
Proof.
  apply (proj1 (get_content_length_of_final_response (Sess := Cases.cdn)
                  "http://cdn/m.mp3" []
                  ["http://cdn/m.mp3"; "http://cdn2/m.mp3"] "4096")).
  exists 1%nat. reflexivity.
Defined.

Lemma get_content_length_enough_fuel_witness :
  Http._get_content_length (Sess := Cases.cdn) (1 + 29) "http://cdn/m.mp3" []
  = Some (inr "4096", ["http://cdn/m.mp3"; "http://cdn2/m.mp3"]).
Proof.
  apply (proj1 (get_content_length_enough_fuel (Sess := Cases.cdn) 1
                  "http://cdn/m.mp3" [])).
  reflexivity.
Defined.

Lemma get_content_length_errors_witness :
  Http._get_content_length (Sess := Cases.cdn) 5 "http://cdn/gone.mp3" []
  = Some (inl (RequestException "404 Not Found"), ["http://cdn/gone.mp3"]).
Proof.
  apply (proj1 (get_content_length_errors (Sess := Cases.cdn) 5
                  "http://cdn/gone.mp3" [])).
  reflexivity.
Defined.

Lemma content_length_header_any_case_witness :
  Http.content_length_header
    ([("Content-Type", "audio/mpeg")] ++ ("Content-LENGTH", "4096") :: [])
  = "4096"
  /\ Http.content_length_header [("Content-Type", "audio/mpeg")] = "0".
Proof.
  split.
  - apply (proj1 content_length_header_any_case); [reflexivity|].
    intros k v [H|[]]. injection H as <- <-. vm_compute. discriminate.
  - apply (proj2 content_length_header_any_case).
    intros k v [H|[]]. injection H as <- <-. vm_compute. discriminate.
Defined.
